(** * Emulation speed throttling (src/drivers/Qt/sdl-throttle.cpp)

    A shallow embedding of the throttle controller of the Qt/SDL driver:
    the speed scale [g_fpsScale], the frame budget [desired_frametime], the
    pacing window ([Lasttime], [Nexttime], [InFrame]) and the [MaxSpeed]
    flag, with the functions that read and write them.

    C++ [double] values are IEEE-754 binary64 numbers, modelled with the
    executable specification [SpecFloat] of the Standard Library (one
    rounding to nearest-even per operation).  Integers are [Z]; the calls
    to the emulation core, to SDL and to the display layer are recorded as
    events of a trace, their results being supplied by a host. *)

From Stdlib Require Import ZArith QArith Bool List Lia String.
From Stdlib Require Import Floats.SpecFloat.
Import ListNotations.
Local Open Scope Z_scope.

(** ** Binary64 arithmetic *)

Module Double.

Definition prec : Z := 53.
Definition emax : Z := 1024.

Definition double : Type := spec_float.

(** A [double] held by the program is a well-formed binary64 datum. *)
Definition is_double (x : double) : Prop := valid_binary prec emax x = true.

(** Conversion of an integer ([int], [int32_t], [uint64]) to [double]:
    exact below 2^53, rounded to nearest-even above. *)
Definition of_Z (n : Z) : double := binary_normalize prec emax n 0 false.

Definition mul : double -> double -> double := SFmul prec emax.
Definition div : double -> double -> double := SFdiv prec emax.
Definition add : double -> double -> double := SFadd prec emax.

(** C++ comparisons: [a < b] is [ltb a b], [a > b] is [ltb b a],
    [a >= b] is [leb b a]; all are false on NaN. *)
Definition ltb : double -> double -> bool := SFltb.
Definition leb : double -> double -> bool := SFleb.

(** Truncation toward zero of a finite value; [None] on infinities and
    NaN. *)
Definition trunc (x : double) : option Z :=
  match x with
  | S754_zero _ => Some 0
  | S754_finite s m e => Some (cond_Zopp s (Z.shiftl (Zpos m) e))
  | S754_infinity _ | S754_nan => None
  end.

(** Conversion [double -> int32_t] and [double -> uint64]: the truncated
    value when the destination type can hold it, undefined otherwise. *)
Definition to_int32 (x : double) : option Z :=
  match trunc x with
  | Some n => if (- 2 ^ 31 <=? n) && (n <? 2 ^ 31) then Some n else None
  | None => None
  end.

Definition to_uint64 (x : double) : option Z :=
  match trunc x with
  | Some n => if (0 <=? n) && (n <? 2 ^ 64) then Some n else None
  | None => None
  end.

(** The rational a double stands for, in lowest terms; [None] on
    infinities and NaN. *)
Definition value (x : double) : option Q :=
  match x with
  | S754_zero _ => Some 0%Q
  | S754_finite s m e =>
      Some (Qred (inject_Z (cond_Zopp s (Zpos m)) * Qpower 2 e))
  | S754_infinity _ | S754_nan => None
  end.

#[global] Arguments of_Z : simpl never.
#[global] Arguments mul : simpl never.
#[global] Arguments div : simpl never.
#[global] Arguments add : simpl never.
#[global] Arguments ltb : simpl never.
#[global] Arguments leb : simpl never.

End Double.

Import Double.

(** ** Constants of the source *)

(** [Slowest = 0.015625], that is 2^-6. *)
Definition Slowest : double := S754_finite false 4503599627370496 (-58).
(** [Fastest = 32]. *)
Definition Fastest : double := S754_finite false 4503599627370496 (-47).
(** [Normal = 1.0]. *)
Definition Normal : double := S754_finite false 4503599627370496 (-52).

(** [#define LOGMUL 1.259921049894873]: the binary64 number nearest to
    that decimal. *)
Definition LOGMUL : double := S754_finite false 5674179970822794 (-52).

(** Initial value of [desired_frametime], [(1.0 / 60.099823)]. *)
Definition desired_frametime_init : double :=
  div (of_Z 1) (div (of_Z 60099823) (of_Z 1000000)).

(** ** Program state *)

(** The file-scope variables. *)
Record Globals : Type := mkGlobals {
  Lasttime : Z;                 (* uint64 *)
  Nexttime : Z;                 (* uint64 *)
  desired_frametime : double;
  InFrame : Z;                  (* int *)
  g_fpsScale : double;
  MaxSpeed : bool
}.

Definition with_Lasttime (v : Z) (g : Globals) : Globals :=
  mkGlobals v (Nexttime g) (desired_frametime g) (InFrame g) (g_fpsScale g) (MaxSpeed g).
Definition with_Nexttime (v : Z) (g : Globals) : Globals :=
  mkGlobals (Lasttime g) v (desired_frametime g) (InFrame g) (g_fpsScale g) (MaxSpeed g).
Definition with_desired_frametime (v : double) (g : Globals) : Globals :=
  mkGlobals (Lasttime g) (Nexttime g) v (InFrame g) (g_fpsScale g) (MaxSpeed g).
Definition with_InFrame (v : Z) (g : Globals) : Globals :=
  mkGlobals (Lasttime g) (Nexttime g) (desired_frametime g) v (g_fpsScale g) (MaxSpeed g).
Definition with_g_fpsScale (v : double) (g : Globals) : Globals :=
  mkGlobals (Lasttime g) (Nexttime g) (desired_frametime g) (InFrame g) v (MaxSpeed g).
Definition with_MaxSpeed (v : bool) (g : Globals) : Globals :=
  mkGlobals (Lasttime g) (Nexttime g) (desired_frametime g) (InFrame g) (g_fpsScale g) v.

(** The variables as the program starts. *)
Definition initial_globals : Globals :=
  mkGlobals 0 0 desired_frametime_init 0 Normal false.

(** Calls that leave the file, in the order they are made. *)
Inductive event : Type :=
| FCEUI_GetDesiredFPS_call (result : Z)
| SDL_GetTicks_call (result : Z)
| SDL_Delay_call (ms : Z)
| FCEU_DispMessage_call (format : string) (disp : Z) (arg : double).

(** What the surroundings answer: the native frame rate (Hz scaled by
    2^24, an [int32_t]), the successive readings of the millisecond clock,
    and the integer an out-of-range [double -> uint64] conversion gives,
    which the language leaves open. *)
Record Host : Type := mkHost {
  desired_fps : Z;
  ticks : nat -> Z;
  out_of_range_uint64 : double -> Z
}.

Record World : Type := mkWorld {
  globals : Globals;
  clock_reads : nat;
  trace : list event
}.

Definition wrap_uint64 (n : Z) : Z := n mod 2 ^ 64.

(** ** A state monad for the effects *)

Definition M (A : Type) : Type := Host -> World -> A * World.

Definition ret {A : Type} (a : A) : M A := fun _ w => (a, w).

Definition bind {A B : Type} (m : M A) (k : A -> M B) : M B :=
  fun h w => let (a, w') := m h w in k a h w'.

Declare Scope throttle_scope.
Delimit Scope throttle_scope with throttle.
Notation "x <- c1 ;; c2" := (bind c1 (fun x => c2))
  (at level 61, c1 at next level, right associativity) : throttle_scope.
Notation "c1 ;; c2" := (bind c1 (fun _ => c2))
  (at level 61, right associativity) : throttle_scope.
Local Open Scope throttle_scope.

Definition load {A : Type} (field : Globals -> A) : M A :=
  fun _ w => (field (globals w), w).

Definition store (update : Globals -> Globals) : M unit :=
  fun _ w => (tt, mkWorld (update (globals w)) (clock_reads w) (trace w)).

Definition emit (e : event) : M unit :=
  fun _ w => (tt, mkWorld (globals w) (clock_reads w) (trace w ++ [e])).

(** [if (c) { body }] *)
Definition when (c : bool) (body : M unit) : M unit :=
  if c then body else ret tt.

(** *** The external functions *)

Definition FCEUI_GetDesiredFPS : M Z :=
  fun h w =>
    let fps := desired_fps h in
    (fps, mkWorld (globals w) (clock_reads w)
                  (trace w ++ [FCEUI_GetDesiredFPS_call fps])).

Definition SDL_GetTicks : M Z :=
  fun h w =>
    let t := wrap_uint64 (ticks h (clock_reads w)) in
    (t, mkWorld (globals w) (S (clock_reads w))
                (trace w ++ [SDL_GetTicks_call t])).

Definition SDL_Delay (ms : Z) : M unit := emit (SDL_Delay_call ms).

Definition FCEU_DispMessage (format : string) (disp : Z) (arg : double) : M unit :=
  emit (FCEU_DispMessage_call format disp arg).

(** The assignment of a [double] to a [uint64]: the truncated value, or
    what the host gives when that does not fit. *)
Definition uint64_of_double (h : Host) (x : double) : Z :=
  match to_uint64 x with
  | Some n => n
  | None => wrap_uint64 (out_of_range_uint64 h x)
  end.

Definition assign_uint64 (x : double) : M Z :=
  fun h w => (uint64_of_double h x, w).

(** ** The functions of the file *)

(** The body of [RefreshThrottleFPS].  It returns the local [T] as the
    function leaves it, so that statements can speak of it; [T] is [None]
    when the conversion to [int32_t] is out of range. *)
Definition RefreshThrottleFPS_body : M (option Z) :=
  fps <- FCEUI_GetDesiredFPS ;;
  let hz := div (of_Z fps) (of_Z 16777216) in
  scale <- load g_fpsScale ;;
  store (with_desired_frametime (div (of_Z 1) (mul hz scale))) ;;
  frametime <- load desired_frametime ;;
  let T := to_int32 (mul frametime (of_Z 1000)) in
  let T := option_map (fun T => if T <? 0 then 1 else T) T in
  store (with_Lasttime 0) ;;
  store (with_Nexttime 0) ;;
  store (with_InFrame 0) ;;
  ret T.

Definition RefreshThrottleFPS : M unit :=
  RefreshThrottleFPS_body ;; ret tt.

Definition SpeedThrottle : M Z :=
  scale <- load g_fpsScale ;;
  if leb (of_Z 32) scale then ret 0   (* Done waiting *)
  else
    last <- load Lasttime ;;
    when (last =? 0)
      (t <- SDL_GetTicks ;; store (with_Lasttime t)) ;;
    inframe <- load InFrame ;;
    when (inframe =? 0)
      (store (with_InFrame 1) ;;
       last <- load Lasttime ;;
       frametime <- load desired_frametime ;;
       next <- assign_uint64 (add (of_Z last) (mul frametime (of_Z 1000))) ;;
       store (with_Nexttime next)) ;;
    cur_time <- SDL_GetTicks ;;
    next <- load Nexttime ;;
    let time_left := if next <=? cur_time then 0 else next - cur_time in
    time_left <-
      (if 50 <? time_left then ret 50
       else store (with_InFrame 0) ;; ret time_left) ;;
    when (0 <? time_left) (SDL_Delay time_left) ;;
    inframe <- load InFrame ;;
    if inframe =? 0 then
      t <- SDL_GetTicks ;;
      store (with_Lasttime t) ;;
      ret 0                            (* Done waiting *)
    else ret 1.                        (* Must still wait some more *)

Definition speed_message : string := "Emulation speed %.1f%%".

Definition IncreaseEmulationSpeed : M unit :=
  scale <- load g_fpsScale ;;
  store (with_g_fpsScale (mul scale LOGMUL)) ;;
  scale <- load g_fpsScale ;;
  when (ltb Fastest scale) (store (with_g_fpsScale Fastest)) ;;
  RefreshThrottleFPS ;;
  scale <- load g_fpsScale ;;
  FCEU_DispMessage speed_message 0 (mul scale (of_Z 100)).

Definition DecreaseEmulationSpeed : M unit :=
  scale <- load g_fpsScale ;;
  store (with_g_fpsScale (div scale LOGMUL)) ;;
  scale <- load g_fpsScale ;;
  when (ltb scale Slowest) (store (with_g_fpsScale Slowest)) ;;
  RefreshThrottleFPS ;;
  scale <- load g_fpsScale ;;
  FCEU_DispMessage speed_message 0 (mul scale (of_Z 100)).

Definition CustomEmulationSpeed (spdPercent : Z) : M Z :=
  if spdPercent <? 1 then ret (-1)
  else
    store (with_g_fpsScale (div (of_Z spdPercent) (of_Z 100))) ;;
    scale <- load g_fpsScale ;;
    (if ltb scale Slowest then store (with_g_fpsScale Slowest)
     else when (ltb Fastest scale) (store (with_g_fpsScale Fastest))) ;;
    RefreshThrottleFPS ;;
    scale <- load g_fpsScale ;;
    FCEU_DispMessage speed_message 0 (mul scale (of_Z 100)) ;;
    ret 0.

Section Presets.

(** The command codes come from a header that is not part of this file;
    they are taken as given.  A [switch] needs its labels distinct. *)
Variables EMUSPEED_SLOWEST EMUSPEED_SLOWER EMUSPEED_NORMAL
          EMUSPEED_FASTER EMUSPEED_FASTEST : Z.

Definition presets : list Z :=
  [EMUSPEED_SLOWEST; EMUSPEED_SLOWER; EMUSPEED_NORMAL;
   EMUSPEED_FASTER; EMUSPEED_FASTEST].

(** The [switch] of [FCEUD_SetEmulationSpeed]; the result tells whether
    control leaves it through a [break] (true) or through the [return]
    of the [default] label (false). *)
Definition preset_switch (cmd : Z) : M bool :=
  if cmd =? EMUSPEED_SLOWEST then
    store (with_g_fpsScale Slowest) ;; ret true
  else if cmd =? EMUSPEED_SLOWER then
    DecreaseEmulationSpeed ;; ret true
  else if cmd =? EMUSPEED_NORMAL then
    store (with_g_fpsScale Normal) ;; ret true
  else if cmd =? EMUSPEED_FASTER then
    IncreaseEmulationSpeed ;; ret true
  else if cmd =? EMUSPEED_FASTEST then
    store (with_g_fpsScale Fastest) ;;
    store (with_MaxSpeed true) ;;
    ret true
  else ret false.

Definition FCEUD_SetEmulationSpeed (cmd : Z) : M unit :=
  store (with_MaxSpeed false) ;;
  broke <- preset_switch cmd ;;
  if broke then
    RefreshThrottleFPS ;;
    scale <- load g_fpsScale ;;
    FCEU_DispMessage speed_message 0 (mul scale (of_Z 100))
  else ret tt.

End Presets.

(** ** Vocabulary of the statements *)

(** Results of [SpeedThrottle]. *)
Definition WAIT_COMPLETE : Z := 0.
Definition WAIT_PENDING : Z := 1.

(** [n] calls in a row, with their results. *)
Fixpoint call_n {A : Type} (n : nat) (m : M A) : M (list A) :=
  match n with
  | O => ret []
  | S k => a <- m ;; rest <- call_n k m ;; ret (a :: rest)
  end.

(** Milliseconds handed to [SDL_Delay] along a trace. *)
Fixpoint slept (evs : list event) : Z :=
  match evs with
  | [] => 0
  | SDL_Delay_call ms :: rest => ms + slept rest
  | _ :: rest => slept rest
  end.

(** Budget recalculations along a trace: each one queries the core. *)
Fixpoint recalculations (evs : list event) : nat :=
  match evs with
  | [] => O
  | FCEUI_GetDesiredFPS_call _ :: rest => S (recalculations rest)
  | _ :: rest => recalculations rest
  end.

(** Speed notifications along a trace. *)
Fixpoint notifications (evs : list event) : nat :=
  match evs with
  | [] => O
  | FCEU_DispMessage_call f _ _ :: rest =>
      if String.eqb f speed_message then S (notifications rest)
      else notifications rest
  | _ :: rest => notifications rest
  end.

(** The pacing window at line 76 of [SpeedThrottle], as a function of the
    state the call starts in: the window start after line 68, the index
    of the clock reading that becomes [cur_time], the deadline after
    line 74 and the time left after line 80, before it is capped. *)
Definition window_start (h : Host) (w : World) : Z :=
  if Lasttime (globals w) =? 0
  then wrap_uint64 (ticks h (clock_reads w))
  else Lasttime (globals w).

Definition cur_time_index (w : World) : nat :=
  if Lasttime (globals w) =? 0 then S (clock_reads w) else clock_reads w.

Definition deadline (h : Host) (w : World) : Z :=
  if InFrame (globals w) =? 0 then
    uint64_of_double h
      (add (of_Z (window_start h w))
           (mul (desired_frametime (globals w)) (of_Z 1000)))
  else Nexttime (globals w).

Definition remaining (h : Host) (w : World) : Z :=
  let cur_time := wrap_uint64 (ticks h (cur_time_index w)) in
  if deadline h w <=? cur_time then 0 else deadline h w - cur_time.

(** The scale after one step up or down, as lines 114-116 and 128-130
    compute it. *)
Definition step_faster (scale : double) : double :=
  if ltb Fastest (mul scale LOGMUL) then Fastest else mul scale LOGMUL.

Definition step_slower (scale : double) : double :=
  if ltb (div scale LOGMUL) Slowest then Slowest else div scale LOGMUL.

(** The scale a percentage sets, lines 143-152. *)
Definition percent_scale (p : Z) : double :=
  let x := div (of_Z p) (of_Z 100) in
  if ltb x Slowest then Slowest
  else if ltb Fastest x then Fastest else x.

(** The scale lies in [[Slowest, Fastest]]. *)
Definition in_range (scale : double) : Prop :=
  is_double scale /\ leb Slowest scale = true /\ leb scale Fastest = true.

(** The same, read on the rational the scale stands for. *)
Definition within_bounds (scale : double) : Prop :=
  exists q, value scale = Some q /\ (1 / 64 <= q <= 32)%Q.

(** The scale a call leaves. *)
Definition scale_after {A : Type} (m : M A) (h : Host) (w : World) : double :=
  g_fpsScale (globals (snd (m h w))).

(** What a percentage sets, by cases on the percentage. *)
Definition percent_scale_cases (p : Z) : double :=
  if p =? 1 then Slowest
  else if p <=? 3200 then div (of_Z p) (of_Z 100)
  else Fastest.

(** Decision procedures, for checking small percentages one by one. *)
Definition same_finite (x y : double) : bool :=
  match x, y with
  | S754_finite s1 m1 e1, S754_finite s2 m2 e2 =>
      Bool.eqb s1 s2 && Pos.eqb m1 m2 && Z.eqb e1 e2
  | _, _ => false
  end.

Definition in_rangeb (x : double) : bool :=
  valid_binary prec emax x && leb Slowest x && leb x Fastest.

Definition percent_check (k : nat) : bool :=
  let p := Z.of_nat k in
  same_finite (percent_scale p) (percent_scale_cases p) &&
  in_rangeb (percent_scale p).

(** The frame budget in seconds, lines 37-39, and the local [T] of
    lines 41-43, as functions of the native rate and of the scale. *)
Definition frame_budget (fps : Z) (scale : double) : double :=
  div (of_Z 1) (mul (div (of_Z fps) (of_Z 16777216)) scale).

Definition local_T (frametime : double) : option Z :=
  match to_int32 (mul frametime (of_Z 1000)) with
  | Some T => Some (if T <? 0 then 1 else T)
  | None => None
  end.

(** The world a budget recalculation leaves. *)
Definition refreshed (h : Host) (w : World) : World :=
  mkWorld
    (mkGlobals 0 0 (frame_budget (desired_fps h) (g_fpsScale (globals w))) 0
               (g_fpsScale (globals w)) (MaxSpeed (globals w)))
    (clock_reads w)
    (trace w ++ [FCEUI_GetDesiredFPS_call (desired_fps h)]).

(** ** Sample hosts and worlds *)

(** An NTSC core (60.0998 Hz) and a clock read every 20 ms. *)
Definition host_ntsc : Host :=
  mkHost 1008307711 (fun k => 1000 + 20 * Z.of_nat k) (fun _ => 0).

(** A core that reports the rate -1 Hz. *)
Definition host_negative : Host :=
  mkHost (-16777216) (fun k => 1000 + 20 * Z.of_nat k) (fun _ => 0).

Definition world_start : World := mkWorld initial_globals 0 [].

Definition world_fastest : World :=
  mkWorld (with_MaxSpeed true (with_g_fpsScale Fastest initial_globals)) 0 [].

(** ** Vocabulary of further statements *)

(** The clock reading that becomes [cur_time] at line 76, and the one
    taken at line 103 after the sleep. *)
Definition cur_time (h : Host) (w : World) : Z :=
  wrap_uint64 (ticks h (cur_time_index w)).

Definition end_time (h : Host) (w : World) : Z :=
  wrap_uint64 (ticks h (S (cur_time_index w))).

(** The events of line 67, when it runs. *)
Definition start_reads (h : Host) (w : World) : list event :=
  if Lasttime (globals w) =? 0
  then [SDL_GetTicks_call (wrap_uint64 (ticks h (clock_reads w)))]
  else [].

(** The worlds a throttled call of [SpeedThrottle] leaves: still waiting,
    or done. *)
Definition pending_world (h : Host) (w : World) : World :=
  mkWorld
    (mkGlobals (window_start h w) (deadline h w)
               (desired_frametime (globals w))
               (if InFrame (globals w) =? 0 then 1 else InFrame (globals w))
               (g_fpsScale (globals w)) (MaxSpeed (globals w)))
    (S (cur_time_index w))
    (trace w ++ start_reads h w ++
       [SDL_GetTicks_call (cur_time h w); SDL_Delay_call 50]).

Definition completed_world (h : Host) (w : World) : World :=
  mkWorld
    (mkGlobals (end_time h w) (deadline h w)
               (desired_frametime (globals w)) 0
               (g_fpsScale (globals w)) (MaxSpeed (globals w)))
    (S (S (cur_time_index w)))
    (trace w ++ start_reads h w ++
       [SDL_GetTicks_call (cur_time h w)] ++
       (if 0 <? remaining h w then [SDL_Delay_call (remaining h w)] else []) ++
       [SDL_GetTicks_call (end_time h w)]).

(** The clock as the program sees it, and a clock on which
    [SDL_Delay (50)] lasts its 50 ms at least.  A reading that leaves
    more than 50 ms before the deadline is the [cur_time] of a call that
    sleeps 50 ms and returns [WAIT_PENDING], so the next reading is at
    least 50 ms later.  Nothing is asked of a reading that leaves 50 ms
    or less, after which the sleep is shorter, nor of the readings from
    the [i]-th on when [i + 1] sleeps of 50 ms use up the time that was
    left at the first: the wait is over by then. *)
Definition seen (h : Host) (k : nat) : Z := wrap_uint64 (ticks h k).

Definition sleeps_honoured (h : Host) (w : World) : Prop :=
  forall i : nat,
    50 * (Z.of_nat i + 1) < remaining h w ->
    50 < deadline h w - seen h (cur_time_index w + i) ->
    seen h (cur_time_index w + i) + 50 <= seen h (S (cur_time_index w + i)).



(** The budget is the one of the current scale and no frame is being
    waited for: the state [RefreshThrottleFPS] leaves. *)
Definition fresh_budget (h : Host) (g : Globals) : Prop :=
  desired_frametime g = frame_budget (desired_fps h) (g_fpsScale g) /\
  Lasttime g = 0 /\ Nexttime g = 0 /\ InFrame g = 0.

(** A positive scale in units of 2^-60. *)
Definition units (x : double) : Z :=
  match x with
  | S754_finite false m e => Zpos m * 2 ^ (e + 60)
  | _ => 0
  end.

(** The percentage [CustomEmulationSpeed] hands to the display, and the
    one the reader of the message expects. *)
Definition announced (p : Z) : double := mul (percent_scale p) (of_Z 100).

Definition expected_percent (p : Z) : Q :=
  if p =? 1 then 25 # 16
  else if p <=? 3200 then inject_Z p
  else 3200.

Definition close_to (tol : Q) (x : double) (q : Q) : bool :=
  match value x with
  | Some v => Qle_bool (q - tol) v && Qle_bool v (q + tol)
  | None => false
  end.

Definition announced_check (k : nat) : bool :=
  close_to (1 # 2 ^ 42) (announced (Z.of_nat k)) (expected_percent (Z.of_nat k)).

(** [y] is [r] times [x] within the relative error [tol], on the
    rationals the two doubles stand for. *)
Definition ratio_within (r tol : Q) (x y : double) : Prop :=
  exists qx qy,
    value x = Some qx /\ value y = Some qy /\
    (r * qx * (1 - tol) <= qy <= r * qx * (1 + tol))%Q.

(** A clock that is read every 50 ms, and the start of a run at the
    slowest speed (budget of 1064 ms). *)
Definition host_steady : Host :=
  mkHost 1008307711 (fun k => 1000 + 50 * Z.of_nat k) (fun _ => 0).

Definition world_slowest : World :=
  mkWorld (mkGlobals 0 0 (frame_budget 1008307711 Slowest) 0 Slowest false) 0 [].

(** A clock on which [SDL_Delay (ms)] lasts [ms] exactly and nothing else
    takes time, along the wait of [world_slowest]: 1000 at the first two
    readings, 50 more at each of the next 21, and the deadline, 2064,
    from then on. *)
Definition host_exact : Host :=
  mkHost 1008307711
         (fun k => Z.min 2064 (Z.max 1000 (950 + 50 * Z.of_nat k)))
         (fun _ => 0).

(** The same clock, started at 0. *)
Definition host_zero : Host :=
  mkHost 1008307711 (fun k => 50 * Z.of_nat k) (fun _ => 0).

(** ** Tactics *)

Ltac split_ifs :=
  repeat match goal with
         | |- context [if ?c then _ else _] => destruct c eqn:?; simpl
         end.

Ltac run_throttle :=
  unfold SpeedThrottle, bind, load, store, when, SDL_GetTicks, SDL_Delay,
         emit, assign_uint64, ret; simpl.

Ltac run_preset :=
  unfold FCEUD_SetEmulationSpeed, preset_switch, bind, store, ret; simpl.

Ltac exponent_cases e :=
  let H := fresh "Hexp" in
  assert (H : e = -59 \/ e = -58 \/ e = -57 \/ e = -56 \/ e = -55 \/ e = -54 \/
              e = -53 \/ e = -52 \/ e = -51 \/ e = -50 \/ e = -49 \/
              e = -48 \/ e = -47 \/ e = -46 \/ e = -45) by lia;
  repeat (destruct H as [-> | H]); [.. | subst e].

(** ** Facts on binary64 arithmetic

    Rounding a mantissa of at least 53 bits gives a normal number whose
    exponent is known up to one unit; this is enough to bound products and
    quotients of normal numbers. *)

Module DoubleFacts.

(** A number of [d] binary digits lies in [[2^(d-1), 2^d)], and conversely. *)
Lemma digits2_pos_bounds (p : positive) :
  2 ^ (Zpos (digits2_pos p) - 1) <= Zpos p < 2 ^ Zpos (digits2_pos p).
Proof.
  induction p as [p IH | p IH |]; simpl digits2_pos.
  - rewrite Pos2Z.inj_succ.
    replace (Z.succ (Zpos (digits2_pos p)) - 1)
      with (Z.succ (Zpos (digits2_pos p) - 1)) by lia.
    rewrite !Z.pow_succ_r by lia. lia.
  - rewrite Pos2Z.inj_succ.
    replace (Z.succ (Zpos (digits2_pos p)) - 1)
      with (Z.succ (Zpos (digits2_pos p) - 1)) by lia.
    rewrite !Z.pow_succ_r by lia. lia.
  - simpl. lia.
Qed.

Lemma digits2_pos_unique (p : positive) (d : Z) :
  2 ^ (d - 1) <= Zpos p < 2 ^ d -> Zpos (digits2_pos p) = d.
Proof.
  intros [Hlo Hhi]. pose proof (digits2_pos_bounds p) as [Blo Bhi].
  set (k := Zpos (digits2_pos p)) in *.
  assert (Hk : 1 <= k) by (unfold k; lia).
  destruct (Z.lt_trichotomy k d) as [Hlt | [Heq | Hgt]]; [| exact Heq |].
  - assert (2 ^ k <= 2 ^ (d - 1)) by (apply Z.pow_le_mono_r; lia). lia.
  - assert (d <= 0 \/ 0 < d) as [Hd | Hd] by lia.
    + assert (2 ^ d <= 1).
      { destruct (Z.eq_dec d 0) as [-> | Hn]; [simpl; lia |].
        rewrite Z.pow_neg_r by lia. lia. }
      lia.
    + assert (2 ^ d <= 2 ^ (k - 1)) by (apply Z.pow_le_mono_r; lia). lia.
Qed.

Lemma digits2_pos_int (p : Z) (lo hi : Z) :
  0 <= lo -> 2 ^ lo <= p < 2 ^ hi ->
  exists q, p = Zpos q /\ lo + 1 <= Zpos (digits2_pos q) <= hi.
Proof.
  intros Hlo [H1 H2].
  assert (0 < 2 ^ lo) by (apply Z.pow_pos_nonneg; lia).
  destruct p as [| q | q]; try lia.
  exists q. split; [reflexivity |].
  pose proof (digits2_pos_bounds q) as [B1 B2].
  set (d := Zpos (digits2_pos q)) in *.
  assert (1 <= d) by (unfold d; lia).
  split.
  - destruct (Z.lt_ge_cases lo d) as [Hc | Hc]; [lia |].
    assert (2 ^ d <= 2 ^ lo) by (apply Z.pow_le_mono_r; lia). lia.
  - destruct (Z.lt_ge_cases hi d) as [Hc | Hc]; [| lia].
    assert (2 ^ hi <= 2 ^ (d - 1)) by (apply Z.pow_le_mono_r; lia). lia.
Qed.

Lemma normal_mantissa (m : positive) :
  Zpos (digits2_pos m) = 53 ->
  4503599627370496 <= Zpos m < 9007199254740992.
Proof.
  intros Hd. pose proof (digits2_pos_bounds m) as B. rewrite Hd in B.
  exact B.
Qed.

(** Shifting a non-negative mantissa right divides it by a power of two. *)
Lemma shr_1_m (mrs : shr_record) :
  0 <= shr_m mrs -> shr_m (shr_1 mrs) = shr_m mrs / 2.
Proof.
  destruct mrs as [m r s]. simpl. intros Hm.
  destruct m as [| [p | p |] | p]; simpl shr_m; try lia; try reflexivity.
  - apply Z.div_unique with 1; lia.
  - apply Z.div_unique with 0; lia.
Qed.

Lemma iter_shr_1_m (n : positive) :
  forall mrs, 0 <= shr_m mrs ->
    shr_m (iter_pos shr_1 n mrs) = shr_m mrs / 2 ^ Zpos n.
Proof.
  induction n as [n IH | n IH |]; intros mrs Hm; simpl iter_pos.
  - assert (H1 : 0 <= shr_m (shr_1 mrs)).
    { rewrite shr_1_m by exact Hm. apply Z.div_pos; lia. }
    assert (H2 : 0 <= shr_m (iter_pos shr_1 n (shr_1 mrs))).
    { rewrite IH by exact H1. apply Z.div_pos; lia. }
    rewrite IH by exact H2. rewrite IH by exact H1. rewrite shr_1_m by exact Hm.
    rewrite !Z.div_div by lia.
    f_equal. replace (Zpos n~1) with (Zpos n + Zpos n + 1) by lia.
    rewrite !Z.pow_add_r by lia. change (2 ^ 1) with 2. ring.
  - assert (H2 : 0 <= shr_m (iter_pos shr_1 n mrs)).
    { rewrite IH by exact Hm. apply Z.div_pos; lia. }
    rewrite IH by exact H2. rewrite IH by exact Hm.
    rewrite !Z.div_div by lia.
    f_equal. replace (Zpos n~0) with (Zpos n + Zpos n) by lia.
    rewrite !Z.pow_add_r by lia. ring.
  - rewrite shr_1_m by exact Hm. reflexivity.
Qed.

Lemma round_nearest_even_range (m : Z) (l : location) :
  round_nearest_even m l = m \/ round_nearest_even m l = m + 1.
Proof.
  destruct l as [| [ | | ]]; simpl; try destruct (Z.even m); auto.
Qed.

Lemma shr_m_of_loc (m : Z) (l : location) : shr_m (shr_record_of_loc m l) = m.
Proof. destruct l as [| [ | | ]]; reflexivity. Qed.

Lemma shr_fexp_normal (m : positive) (e n : Z) (l : location) :
  0 <= n ->
  Zpos (digits2_pos m) = 53 + n ->
  -1074 <= e + n ->
  exists mrs,
    shr_fexp prec emax (Zpos m) e l = (mrs, e + n) /\
    shr_m mrs = Zpos m / 2 ^ n.
Proof.
  intros Hn Hd He. unfold shr_fexp. simpl Zdigits2. rewrite Hd.
  unfold fexp, SpecFloat.emin, prec, emax.
  replace (Z.max (53 + n + e - 53) (3 - 1024 - 53) - e) with n by lia.
  destruct n as [| pn | pn]; simpl shr.
  - eexists. split; [f_equal; lia |].
    rewrite shr_m_of_loc. simpl. rewrite Z.div_1_r. reflexivity.
  - eexists. split; [reflexivity |].
    rewrite iter_shr_1_m by (rewrite shr_m_of_loc; lia).
    rewrite shr_m_of_loc. reflexivity.
  - lia.
Qed.

Lemma div_pow2_bounds (m n k : Z) :
  0 <= n -> 0 <= k ->
  2 ^ (k + n) <= m < 2 ^ (k + 1 + n) ->
  2 ^ k <= m / 2 ^ n < 2 ^ (k + 1).
Proof.
  intros Hn Hk [Hlo Hhi].
  rewrite Z.pow_add_r in Hlo, Hhi by lia.
  assert (Hp : 0 < 2 ^ n) by (apply Z.pow_pos_nonneg; lia).
  split.
  - apply Z.div_le_lower_bound; [exact Hp | lia].
  - apply Z.div_lt_upper_bound; [exact Hp | lia].
Qed.

(** Rounding [m * 2^e], where [m] has [53 + n] bits and the result is in
    the normal range: the result is a 53-bit mantissa at exponent
    [e + n], or [2^52] one exponent higher when rounding carries. *)
Lemma binary_round_aux_normal (s : bool) (m : positive) (e n : Z) (l : location) :
  0 <= n ->
  Zpos (digits2_pos m) = 53 + n ->
  -1074 <= e + n ->
  e + n + 1 <= 971 ->
  exists m' e',
    binary_round_aux prec emax s (Zpos m) e l = S754_finite s m' e' /\
    Zpos (digits2_pos m') = 53 /\
    ((e' = e + n /\
      (Zpos m' = Zpos m / 2 ^ n \/ Zpos m' = Zpos m / 2 ^ n + 1)) \/
     (e' = e + n + 1 /\ Zpos m' = 2 ^ 52)).
Proof.
  intros Hn Hd Hlo Hhi. unfold binary_round_aux.
  destruct (shr_fexp_normal m e n l Hn Hd Hlo) as (mrs & Hs & Hm).
  rewrite Hs.
  assert (Hb : 2 ^ 52 <= shr_m mrs < 2 ^ (52 + 1)).
  { rewrite Hm. apply div_pow2_bounds; try lia.
    pose proof (digits2_pos_bounds m) as B. rewrite Hd in B.
    replace (53 + n - 1) with (52 + n) in B by lia.
    replace (52 + 1 + n) with (53 + n) by lia. exact B. }
  change (2 ^ (52 + 1)) with 9007199254740992 in Hb.
  change (2 ^ 52) with 4503599627370496 in Hb |- *.
  destruct (round_nearest_even_range (shr_m mrs) (loc_of_shr_record mrs)) as [Hr | Hr];
    rewrite Hr; clear Hr.
  - (* rounded down *)
    destruct (shr_m mrs) as [| p1 | p1] eqn:Hp1; try lia.
    assert (Hd1 : Zpos (digits2_pos p1) = 53 + 0).
    { apply digits2_pos_unique.
      change (2 ^ (53 + 0 - 1)) with 4503599627370496.
      change (2 ^ (53 + 0)) with 9007199254740992. lia. }
    destruct (shr_fexp_normal p1 (e + n) 0 loc_Exact (Z.le_refl 0) Hd1) as (mrs2 & Hs2 & Hm2);
      [lia |].
    rewrite Hs2, Hm2. change (2 ^ 0) with 1. rewrite Z.div_1_r.
    unfold emax, prec.
    destruct (Z.leb_spec (e + n + 0) (1024 - 53)); [| lia].
    exists p1, (e + n + 0). split; [reflexivity |]. split; [exact Hd1 |].
    left. split; [lia |]. left. exact Hm.
  - (* rounded up *)
    destruct (shr_m mrs + 1) as [| p1 | p1] eqn:Hp1; try lia.
    destruct (Z.eq_dec (Zpos p1) 9007199254740992) as [Hov | Hno].
    + assert (Hd1 : Zpos (digits2_pos p1) = 53 + 1).
      { apply digits2_pos_unique. rewrite Hov.
        change (2 ^ (53 + 1 - 1)) with 9007199254740992.
        change (2 ^ (53 + 1)) with 18014398509481984. lia. }
      destruct (shr_fexp_normal p1 (e + n) 1 loc_Exact ltac:(lia) Hd1) as (mrs2 & Hs2 & Hm2);
        [lia |].
      rewrite Hs2, Hm2, Hov.
      change (9007199254740992 / 2 ^ 1) with 4503599627370496.
      unfold emax, prec.
      destruct (Z.leb_spec (e + n + 1) (1024 - 53)); [| lia].
      eexists _, (e + n + 1). split; [reflexivity |]. split; [reflexivity |].
      right. split; reflexivity.
    + assert (Hd1 : Zpos (digits2_pos p1) = 53 + 0).
      { apply digits2_pos_unique.
        change (2 ^ (53 + 0 - 1)) with 4503599627370496.
        change (2 ^ (53 + 0)) with 9007199254740992. lia. }
      destruct (shr_fexp_normal p1 (e + n) 0 loc_Exact (Z.le_refl 0) Hd1) as (mrs2 & Hs2 & Hm2);
        [lia |].
      rewrite Hs2, Hm2. change (2 ^ 0) with 1. rewrite Z.div_1_r.
      unfold emax, prec.
      destruct (Z.leb_spec (e + n + 0) (1024 - 53)); [| lia].
      exists p1, (e + n + 0). split; [reflexivity |]. split; [exact Hd1 |].
      left. split; [lia |]. right. lia.
Qed.

(** A normal double: 53 significant bits. *)
Lemma is_double_normal (s : bool) (m : positive) (e : Z) :
  Zpos (digits2_pos m) = 53 -> -1074 <= e <= 971 ->
  is_double (S754_finite s m e).
Proof.
  intros Hd He. unfold is_double, valid_binary, bounded, canonical_mantissa.
  rewrite Hd. unfold fexp, SpecFloat.emin, prec, emax.
  apply andb_true_iff. split; [apply Z.eqb_eq | apply Z.leb_le]; lia.
Qed.

(** Products and quotients of positive normal numbers. *)
Lemma mul_normal (m1 m2 : positive) (e1 e2 : Z) :
  Zpos (digits2_pos m1) = 53 ->
  Zpos (digits2_pos m2) = 53 ->
  -1074 <= e1 + e2 + 52 ->
  e1 + e2 + 54 <= 971 ->
  exists m' e',
    mul (S754_finite false m1 e1) (S754_finite false m2 e2) =
      S754_finite false m' e' /\
    Zpos (digits2_pos m') = 53 /\
    e1 + e2 + 52 <= e' <= e1 + e2 + 54.
Proof.
  intros H1 H2 Hlo Hhi.
  pose proof (normal_mantissa m1 H1) as B1.
  pose proof (normal_mantissa m2 H2) as B2.
  unfold mul, SFmul. simpl xorb.
  assert (Hp : 2 ^ 104 <= Zpos (m1 * m2) < 2 ^ 106).
  { rewrite Pos2Z.inj_mul.
    change (2 ^ 104) with (4503599627370496 * 4503599627370496).
    change (2 ^ 106) with (9007199254740992 * 9007199254740992).
    split.
    - apply Z.mul_le_mono_nonneg; lia.
    - apply Z.mul_lt_mono_nonneg; lia. }
  destruct (Z.lt_ge_cases (Zpos (m1 * m2)) (2 ^ 105)) as [Hs | Hs].
  - assert (Hd : Zpos (digits2_pos (m1 * m2)) = 53 + 52).
    { apply digits2_pos_unique. simpl Z.sub. simpl Z.add. lia. }
    destruct (binary_round_aux_normal false (m1 * m2) (e1 + e2) 52 loc_Exact)
      as (m' & e' & Hr & Hd' & Hcase); try lia.
    exists m', e'. split; [exact Hr |]. split; [exact Hd' |]. lia.
  - assert (Hd : Zpos (digits2_pos (m1 * m2)) = 53 + 53).
    { apply digits2_pos_unique. simpl Z.sub. simpl Z.add. lia. }
    destruct (binary_round_aux_normal false (m1 * m2) (e1 + e2) 53 loc_Exact)
      as (m' & e' & Hr & Hd' & Hcase); try lia.
    exists m', e'. split; [exact Hr |]. split; [exact Hd' |]. lia.
Qed.

Lemma div_normal (m1 m2 : positive) (e1 e2 : Z) :
  Zpos (digits2_pos m1) = 53 ->
  Zpos (digits2_pos m2) = 53 ->
  -1074 <= e1 - e2 - 53 ->
  e1 - e2 - 51 <= 971 ->
  exists m' e',
    div (S754_finite false m1 e1) (S754_finite false m2 e2) =
      S754_finite false m' e' /\
    Zpos (digits2_pos m') = 53 /\
    e1 - e2 - 53 <= e' <= e1 - e2 - 51 /\
    (e' = e1 - e2 - 51 -> Zpos m' = 2 ^ 52).
Proof.
  intros H1 H2 Hlo Hhi.
  pose proof (normal_mantissa m1 H1) as B1.
  pose proof (normal_mantissa m2 H2) as B2.
  unfold div, SFdiv, SFdiv_core_binary. simpl xorb. simpl Zdigits2.
  rewrite H1, H2. unfold fexp, SpecFloat.emin, prec, emax.
  replace (Z.min (Z.max (53 + e1 - (53 + e2) - 53) (3 - 1024 - 53)) (e1 - e2))
    with (e1 - e2 - 53) by lia.
  replace (e1 - e2 - (e1 - e2 - 53)) with 53 by lia.
  rewrite Z.shiftl_mul_pow2 by lia.
  destruct (Z.div_eucl (Zpos m1 * 2 ^ 53) (Zpos m2)) as [q r] eqn:Hq.
  assert (Hqv : q = Zpos m1 * 2 ^ 53 / Zpos m2) by (unfold Z.div; rewrite Hq; reflexivity).
  change (2 ^ 53) with 9007199254740992 in Hqv.
  assert (Hqb : 2 ^ 52 <= q < 2 ^ 54).
  { rewrite Hqv. change (2 ^ 52) with 4503599627370496.
    change (2 ^ 54) with 18014398509481984. split.
    - apply Z.div_le_lower_bound; lia.
    - apply Z.div_lt_upper_bound; lia. }
  destruct q as [| pq | pq]; [simpl in Hqb; lia | | lia].
  destruct (Z.lt_ge_cases (Zpos pq) (2 ^ 53)) as [Hs | Hs].
  - assert (Hd : Zpos (digits2_pos pq) = 53 + 0).
    { apply digits2_pos_unique. simpl Z.sub. simpl Z.add. lia. }
    destruct (binary_round_aux_normal false pq (e1 - e2 - 53) 0
                (new_location (Zpos m2) r) ltac:(lia) Hd)
      as (m' & e' & Hr & Hd' & Hcase); try lia.
    exists m', e'. split; [exact Hr |]. split; [exact Hd' |]. split; lia.
  - assert (Hd : Zpos (digits2_pos pq) = 53 + 1).
    { apply digits2_pos_unique. simpl Z.sub. simpl Z.add. lia. }
    destruct (binary_round_aux_normal false pq (e1 - e2 - 53) 1
                (new_location (Zpos m2) r) ltac:(lia) Hd)
      as (m' & e' & Hr & Hd' & Hcase); try lia.
    exists m', e'. split; [exact Hr |]. split; [exact Hd' |]. split; lia.
Qed.

Lemma iter_xO_value (p k : positive) :
  Zpos (Pos.iter xO p k) = Zpos p * 2 ^ Zpos k.
Proof.
  induction k as [| k IH] using Pos.peano_ind.
  - simpl. lia.
  - rewrite Pos.iter_succ. rewrite Pos2Z.inj_xO, IH.
    rewrite Pos2Z.inj_succ, Z.pow_succ_r by lia. ring.
Qed.

(** An integer below 2^52 converts to a positive normal number. *)
Lemma of_Z_normal (p : positive) :
  Zpos (digits2_pos p) < 53 ->
  exists m e,
    of_Z (Zpos p) = S754_finite false m e /\
    Zpos (digits2_pos m) = 53 /\
    Zpos (digits2_pos p) - 53 <= e <= Zpos (digits2_pos p) - 52.
Proof.
  intros Hd. unfold of_Z, binary_normalize, binary_round, shl_align.
  set (d := Zpos (digits2_pos p)) in *.
  assert (Hd1 : 1 <= d) by (unfold d; lia).
  unfold fexp, SpecFloat.emin, prec, emax.
  replace (Z.max (d + 0 - 53) (3 - 1024 - 53) - 0) with (d - 53) by lia.
  replace (Z.max (d + 0 - 53) (3 - 1024 - 53)) with (d - 53) by lia.
  destruct (d - 53) as [| k | k] eqn:Hk; try lia.
  assert (Hm : Zpos (digits2_pos (Pos.iter xO p k)) = 53 + 0).
  { apply digits2_pos_unique. rewrite iter_xO_value.
    pose proof (digits2_pos_bounds p) as B. fold d in B.
    replace (53 + 0 - 1) with ((d - 1) + Zpos k) by lia.
    replace (53 + 0) with (d + Zpos k) by lia.
    rewrite !Z.pow_add_r by lia.
    assert (0 < 2 ^ Zpos k) by (apply Z.pow_pos_nonneg; lia).
    split.
    - apply Z.mul_le_mono_nonneg_r; lia.
    - apply Z.mul_lt_mono_pos_r; lia. }
  destruct (binary_round_aux_normal false (Pos.iter xO p k) (Zneg k) 0 loc_Exact
              ltac:(lia) Hm)
    as (m' & e' & Hr & Hd' & Hcase); try lia.
  exists m', e'. split; [exact Hr |]. split; [exact Hd' |]. lia.
Qed.

(** Comparison of positive finite numbers, on exponents first. *)
Lemma compare_pos_finite (m1 m2 : positive) (e1 e2 : Z) :
  SFcompare (S754_finite false m1 e1) (S754_finite false m2 e2) =
  Some match e1 ?= e2 with
       | Lt => Lt
       | Gt => Gt
       | Eq => (m1 ?= m2)%positive
       end.
Proof. reflexivity. Qed.

Lemma leb_pos_finite (m1 m2 : positive) (e1 e2 : Z) :
  leb (S754_finite false m1 e1) (S754_finite false m2 e2) = true <->
  e1 < e2 \/ (e1 = e2 /\ Zpos m1 <= Zpos m2).
Proof.
  unfold leb, SFleb. rewrite compare_pos_finite.
  destruct (Z.compare_spec e1 e2) as [He | He | He].
  - destruct (Pos.compare_spec m1 m2); split; intros; try lia; try discriminate;
      reflexivity.
  - split; intros; [lia | reflexivity].
  - split; intros; [discriminate | lia].
Qed.

Lemma ltb_pos_finite (m1 m2 : positive) (e1 e2 : Z) :
  ltb (S754_finite false m1 e1) (S754_finite false m2 e2) = true <->
  e1 < e2 \/ (e1 = e2 /\ Zpos m1 < Zpos m2).
Proof.
  unfold ltb, SFltb. rewrite compare_pos_finite.
  destruct (Z.compare_spec e1 e2) as [He | He | He].
  - destruct (Pos.compare_spec m1 m2); split; intros; try lia; try discriminate;
      reflexivity.
  - split; intros; [lia | reflexivity].
  - split; intros; [discriminate | lia].
Qed.

Lemma not_ltb_leb (m1 m2 : positive) (e1 e2 : Z) :
  ltb (S754_finite false m1 e1) (S754_finite false m2 e2) = false ->
  leb (S754_finite false m2 e2) (S754_finite false m1 e1) = true.
Proof.
  intros H. apply leb_pos_finite.
  destruct (Z.lt_trichotomy e1 e2) as [Hl | [He | Hg]].
  - exfalso. assert (ltb (S754_finite false m1 e1) (S754_finite false m2 e2) = true)
      by (apply ltb_pos_finite; lia). congruence.
  - destruct (Z.lt_ge_cases (Zpos m1) (Zpos m2)) as [Hm | Hm].
    + exfalso. assert (ltb (S754_finite false m1 e1) (S754_finite false m2 e2) = true)
        by (apply ltb_pos_finite; lia). congruence.
    + right. split; [lia | lia].
  - left. lia.
Qed.

(** Swapping the operands of a comparison reverses its result. *)
Lemma SFcompare_swap (a b : double) :
  SFcompare b a = option_map CompOpp (SFcompare a b).
Proof.
  destruct a as [sa | sa | | sa ma ea], b as [sb | sb | | sb mb eb];
    try reflexivity;
    try (destruct sa; reflexivity); try (destruct sb; reflexivity);
    try (destruct sa, sb; reflexivity).
  simpl. destruct sa, sb; try reflexivity.
  - rewrite (Z.compare_antisym ea eb).
    destruct (ea ?= eb); simpl; try reflexivity.
    change (Pos.compare_cont Eq ma mb) with (ma ?= mb)%positive.
    change (Pos.compare_cont Eq mb ma) with (mb ?= ma)%positive.
    rewrite (Pos.compare_antisym ma mb). reflexivity.
  - rewrite (Z.compare_antisym ea eb).
    destruct (ea ?= eb); simpl; try reflexivity.
    change (Pos.compare_cont Eq ma mb) with (ma ?= mb)%positive.
    change (Pos.compare_cont Eq mb ma) with (mb ?= ma)%positive.
    rewrite (Pos.compare_antisym ma mb). reflexivity.
Qed.

Lemma leb_not_ltb (a b : double) : leb a b = true -> ltb b a = false.
Proof.
  unfold leb, ltb, SFleb, SFltb. rewrite (SFcompare_swap a b).
  destruct (SFcompare a b) as [[ | | ] |]; simpl; congruence.
Qed.

End DoubleFacts.

Import DoubleFacts.

(** ** The scale and its bounds *)

(** The constants are the doubles their literals denote. *)
Lemma constants_literals :
  Slowest = div (of_Z 15625) (of_Z 1000000) /\
  Fastest = of_Z 32 /\
  Normal = of_Z 1 /\
  LOGMUL = div (of_Z 1259921049894873) (of_Z (10 ^ 15)).
Proof. repeat split; vm_compute; reflexivity. Qed.

Lemma in_range_Slowest : in_range Slowest.
Proof. repeat split. Qed.

Lemma in_range_Fastest : in_range Fastest.
Proof. repeat split. Qed.

Lemma in_range_Normal : in_range Normal.
Proof. repeat split. Qed.

(** A scale in range is a positive normal number with an exponent from
    -58 to -47, and only [Fastest] has exponent -47. *)
Lemma in_range_parts (g : double) :
  in_range g ->
  exists m e,
    g = S754_finite false m e /\
    Zpos (digits2_pos m) = 53 /\
    -58 <= e <= -47 /\
    (e = -47 -> g = Fastest).
Proof.
  intros (Hv & Hlo & Hhi).
  destruct g as [s | s | | s m e]; try discriminate Hlo;
    try (destruct s; discriminate).
  destruct s; [discriminate Hlo |].
  unfold Slowest in Hlo. unfold Fastest in Hhi.
  apply leb_pos_finite in Hlo. apply leb_pos_finite in Hhi.
  assert (He : -58 <= e <= -47) by lia.
  unfold is_double, valid_binary, bounded, canonical_mantissa in Hv.
  apply andb_true_iff in Hv. destruct Hv as [Hc _].
  apply Z.eqb_eq in Hc. unfold fexp, SpecFloat.emin, prec, emax in Hc.
  assert (Hd : Zpos (digits2_pos m) = 53) by lia.
  exists m, e. repeat split; try lia.
  intros ->. pose proof (digits2_pos_bounds m) as B. rewrite Hd in B.
  change (2 ^ (53 - 1)) with 4503599627370496 in B.
  assert (Zpos m = 4503599627370496) by lia.
  unfold Fastest. f_equal. lia.
Qed.

Lemma in_range_value (g : double) : in_range g -> within_bounds g.
Proof.
  intros Hg. destruct (in_range_parts g Hg) as (m & e & Hgeq & Hd & He & Htop).
  pose proof (normal_mantissa m Hd) as B.
  assert (Hm : e = -47 -> Zpos m = 4503599627370496).
  { intros E. specialize (Htop E). rewrite Hgeq in Htop.
    unfold Fastest in Htop. injection Htop as Hm' _. lia. }
  subst g. eexists. split; [reflexivity |].
  rewrite Qred_correct. simpl cond_Zopp.
  assert (Hcases : e = -58 \/ e = -57 \/ e = -56 \/ e = -55 \/ e = -54 \/
                   e = -53 \/ e = -52 \/ e = -51 \/ e = -50 \/ e = -49 \/
                   e = -48 \/ e = -47) by lia.
  repeat (destruct Hcases as [-> | Hcases]); try subst e;
    unfold Qle; simpl; split; try lia.
  all: specialize (Hm eq_refl); lia.
Qed.

(** One step up or down keeps the scale in range. *)
Lemma step_faster_in_range (g : double) :
  in_range g -> in_range (step_faster g).
Proof.
  intros Hg. destruct (in_range_parts g Hg) as (m & e & -> & Hd & He & _).
  unfold step_faster.
  destruct (ltb Fastest (mul (S754_finite false m e) LOGMUL)) eqn:Hcmp;
    [apply in_range_Fastest |].
  unfold LOGMUL in *.
  destruct (mul_normal m 5674179970822794 e (-52) Hd eq_refl)
    as (m' & e' & Hr & Hd' & He'); try lia.
  rewrite Hr in *.
  pose proof (normal_mantissa m' Hd') as B.
  split; [apply is_double_normal; [exact Hd' | lia] |].
  split.
  - apply leb_pos_finite. lia.
  - apply not_ltb_leb. exact Hcmp.
Qed.

Lemma step_slower_Fastest : in_range (step_slower Fastest).
Proof. repeat split. Qed.

Lemma step_slower_in_range (g : double) :
  in_range g -> in_range (step_slower g).
Proof.
  intros Hg. destruct (in_range_parts g Hg) as (m & e & Hgeq & Hd & He & Htop).
  destruct (Z.eq_dec e (-47)) as [He47 | He47].
  { rewrite (Htop He47). apply step_slower_Fastest. }
  subst g. unfold step_slower.
  destruct (ltb (div (S754_finite false m e) LOGMUL) Slowest) eqn:Hcmp;
    [apply in_range_Slowest |].
  unfold LOGMUL in *.
  destruct (div_normal m 5674179970822794 e (-52) Hd eq_refl)
    as (m' & e' & Hr & Hd' & He' & Hov); try lia.
  rewrite Hr in *.
  pose proof (normal_mantissa m' Hd') as B.
  split; [apply is_double_normal; [exact Hd' | lia] |].
  split.
  - apply not_ltb_leb. exact Hcmp.
  - apply leb_pos_finite.
    destruct (Z.eq_dec e' (-47)) as [Heq | Hne]; [| lia].
    right. split; [exact Heq |]. rewrite Hov by lia. simpl. lia.
Qed.

Lemma iter_in_range (f : double -> double) (n : nat) (g : double) :
  (forall x, in_range x -> in_range (f x)) ->
  in_range g -> in_range (Nat.iter n f g).
Proof.
  intros Hf Hg. induction n as [| k IH]; simpl; auto.
Qed.

(** Percentages from 8192 on are capped at [Fastest]; the smaller ones
    are checked one by one. *)
Lemma percent_scale_large (p : Z) :
  8192 <= p < 2 ^ 31 -> percent_scale p = Fastest.
Proof.
  intros Hp.
  destruct (digits2_pos_int p 13 31 ltac:(lia) ltac:(simpl; lia)) as (q & -> & Hq).
  destruct (of_Z_normal q ltac:(lia)) as (m & e & Hx & Hd & He).
  unfold percent_scale. rewrite Hx.
  change (of_Z 100) with (S754_finite false 7036874417766400 (-46)).
  destruct (div_normal m 7036874417766400 e (-46) Hd eq_refl)
    as (m' & e' & Hr & Hd' & He' & _); try lia.
  rewrite Hr.
  assert (Hs : ltb (S754_finite false m' e') Slowest = false).
  { destruct (ltb (S754_finite false m' e') Slowest) eqn:Hc; [| reflexivity].
    unfold Slowest in Hc. apply ltb_pos_finite in Hc. lia. }
  assert (Hf : ltb Fastest (S754_finite false m' e') = true).
  { unfold Fastest. apply ltb_pos_finite. lia. }
  rewrite Hs, Hf. reflexivity.
Qed.

Lemma same_finite_eq (x y : double) : same_finite x y = true -> x = y.
Proof.
  destruct x as [| | | s1 m1 e1], y as [| | | s2 m2 e2]; try discriminate.
  simpl. intros H.
  apply andb_true_iff in H. destruct H as [H He].
  apply andb_true_iff in H. destruct H as [Hs Hm].
  apply Bool.eqb_prop in Hs. apply Pos.eqb_eq in Hm. apply Z.eqb_eq in He.
  congruence.
Qed.

Lemma in_rangeb_spec (x : double) : in_rangeb x = true -> in_range x.
Proof.
  unfold in_rangeb, in_range, is_double. intros H.
  apply andb_true_iff in H. destruct H as [H H3].
  apply andb_true_iff in H. destruct H as [H1 H2]. auto.
Qed.

Lemma percent_check_small :
  forallb percent_check (seq 1 (Z.to_nat 8191)) = true.
Proof. vm_compute. reflexivity. Qed.

Lemma percent_scale_by_cases (p : Z) :
  1 <= p < 2 ^ 31 ->
  percent_scale p = percent_scale_cases p /\ in_range (percent_scale p).
Proof.
  intros Hp. destruct (Z.lt_ge_cases p 8192) as [Hs | Hl].
  - pose proof percent_check_small as H.
    rewrite forallb_forall in H.
    specialize (H (Z.to_nat p)).
    assert (Hin : In (Z.to_nat p) (seq 1 (Z.to_nat 8191))) by (apply in_seq; lia).
    specialize (H Hin). unfold percent_check in H.
    rewrite Z2Nat.id in H by lia.
    apply andb_true_iff in H. destruct H as [H1 H2].
    split; [apply same_finite_eq; exact H1 | apply in_rangeb_spec; exact H2].
  - rewrite percent_scale_large by lia.
    split; [| apply in_range_Fastest].
    unfold percent_scale_cases.
    destruct (Z.eqb_spec p 1); [lia |].
    destruct (Z.leb_spec p 3200); [lia | reflexivity].
Qed.

Lemma percent_scale_clamps (p : Z) :
  let x := div (of_Z p) (of_Z 100) in
  (ltb x Slowest = true -> percent_scale p = Slowest) /\
  (ltb Fastest x = true -> percent_scale p = Fastest) /\
  (leb Slowest x = true -> leb x Fastest = true -> percent_scale p = x).
Proof.
  unfold percent_scale. simpl. split; [| split].
  - intros ->. reflexivity.
  - intros H. rewrite H.
    destruct (ltb (div (of_Z p) (of_Z 100)) Slowest) eqn:Hs; [| reflexivity].
    (* both comparisons cannot hold: Slowest < Fastest *)
    exfalso. destruct (div (of_Z p) (of_Z 100)) as [s | s | | s m e];
      try discriminate; try (destruct s; discriminate).
    destruct s; [discriminate |].
    unfold Slowest in Hs. unfold Fastest in H.
    apply ltb_pos_finite in Hs. apply ltb_pos_finite in H. lia.
  - intros Hlo Hhi.
    rewrite (leb_not_ltb _ _ Hlo), (leb_not_ltb _ _ Hhi). reflexivity.
Qed.

(** With a positive native rate and a scale in range the budget is a
    positive normal number. *)
Lemma frame_budget_positive (fps : Z) (scale : double) :
  1 <= fps < 2 ^ 31 ->
  in_range scale ->
  exists m e,
    frame_budget fps scale = S754_finite false m e /\
    Zpos (digits2_pos m) = 53.
Proof.
  intros Hfps Hscale.
  destruct (digits2_pos_int fps 0 31 ltac:(lia) ltac:(simpl; lia))
    as (q & -> & Hq).
  destruct (of_Z_normal q ltac:(lia)) as (m1 & e1 & H1 & Hd1 & He1).
  destruct (in_range_parts scale Hscale) as (ms & es & -> & Hds & Hes & _).
  unfold frame_budget. rewrite H1.
  change (of_Z 16777216) with (S754_finite false 4503599627370496 (-28)).
  change (of_Z 1) with (S754_finite false 4503599627370496 (-52)).
  destruct (div_normal m1 4503599627370496 e1 (-28) Hd1 eq_refl)
    as (m2 & e2 & H2 & Hd2 & He2 & _); try lia.
  rewrite H2.
  destruct (mul_normal m2 ms e2 es Hd2 Hds)
    as (m3 & e3 & H3 & Hd3 & He3); try lia.
  rewrite H3.
  destruct (div_normal 4503599627370496 m3 (-52) e3 eq_refl Hd3)
    as (m4 & e4 & H4 & Hd4 & _); try lia.
  exists m4, e4. split; [exact H4 | exact Hd4].
Qed.

(** ** Running the functions *)

Lemma RefreshThrottleFPS_body_run (h : Host) (w : World) :
  RefreshThrottleFPS_body h w =
  (local_T (frame_budget (desired_fps h) (g_fpsScale (globals w))),
   refreshed h w).
Proof.
  unfold RefreshThrottleFPS_body, local_T, frame_budget, refreshed,
         bind, load, store, ret, FCEUI_GetDesiredFPS. simpl.
  destruct (to_int32 _); reflexivity.
Qed.

Lemma RefreshThrottleFPS_run (h : Host) (w : World) :
  RefreshThrottleFPS h w = (tt, refreshed h w).
Proof.
  unfold RefreshThrottleFPS, bind. rewrite RefreshThrottleFPS_body_run.
  reflexivity.
Qed.

Lemma IncreaseEmulationSpeed_run (h : Host) (w : World) :
  IncreaseEmulationSpeed h w =
  let w1 := mkWorld (with_g_fpsScale (step_faster (g_fpsScale (globals w))) (globals w))
                    (clock_reads w) (trace w) in
  let w2 := refreshed h w1 in
  (tt, mkWorld (globals w2) (clock_reads w2)
         (trace w2 ++ [FCEU_DispMessage_call speed_message 0
                         (mul (g_fpsScale (globals w2)) (of_Z 100))])).
Proof.
  unfold IncreaseEmulationSpeed, step_faster, bind, load, store, when; simpl.
  destruct (ltb Fastest (mul (g_fpsScale (globals w)) LOGMUL)); reflexivity.
Qed.

Lemma DecreaseEmulationSpeed_run (h : Host) (w : World) :
  DecreaseEmulationSpeed h w =
  let w1 := mkWorld (with_g_fpsScale (step_slower (g_fpsScale (globals w))) (globals w))
                    (clock_reads w) (trace w) in
  let w2 := refreshed h w1 in
  (tt, mkWorld (globals w2) (clock_reads w2)
         (trace w2 ++ [FCEU_DispMessage_call speed_message 0
                         (mul (g_fpsScale (globals w2)) (of_Z 100))])).
Proof.
  unfold DecreaseEmulationSpeed, step_slower, bind, load, store, when; simpl.
  destruct (ltb (div (g_fpsScale (globals w)) LOGMUL) Slowest); reflexivity.
Qed.

Lemma CustomEmulationSpeed_run (h : Host) (w : World) (p : Z) :
  1 <= p ->
  CustomEmulationSpeed p h w =
  let w1 := mkWorld (with_g_fpsScale (percent_scale p) (globals w))
                    (clock_reads w) (trace w) in
  let w2 := refreshed h w1 in
  (0, mkWorld (globals w2) (clock_reads w2)
        (trace w2 ++ [FCEU_DispMessage_call speed_message 0
                        (mul (g_fpsScale (globals w2)) (of_Z 100))])).
Proof.
  intros Hp.
  unfold CustomEmulationSpeed, percent_scale.
  destruct (Z.ltb_spec p 1) as [Hlt | _]; [lia |].
  unfold bind, load, store, when; simpl.
  destruct (ltb (div (of_Z p) (of_Z 100)) Slowest); [reflexivity |].
  destruct (ltb Fastest (div (of_Z p) (of_Z 100))); reflexivity.
Qed.

Lemma CustomEmulationSpeed_reject (h : Host) (w : World) (p : Z) :
  p < 1 -> CustomEmulationSpeed p h w = (-1, w).
Proof.
  intros Hp. unfold CustomEmulationSpeed.
  destruct (Z.ltb_spec p 1) as [_ | Hge]; [reflexivity | lia].
Qed.

Lemma of_Z_32 : of_Z 32 = Fastest.
Proof. reflexivity. Qed.

Lemma SpeedThrottle_fast_path (h : Host) (w : World) :
  leb Fastest (g_fpsScale (globals w)) = true ->
  SpeedThrottle h w = (WAIT_COMPLETE, w).
Proof.
  intros Hfast. unfold SpeedThrottle, bind, load.
  rewrite of_Z_32, Hfast. reflexivity.
Qed.

Lemma scale_after_Increase (h : Host) (w : World) :
  scale_after IncreaseEmulationSpeed h w = step_faster (g_fpsScale (globals w)).
Proof. unfold scale_after. rewrite IncreaseEmulationSpeed_run. reflexivity. Qed.

Lemma scale_after_Decrease (h : Host) (w : World) :
  scale_after DecreaseEmulationSpeed h w = step_slower (g_fpsScale (globals w)).
Proof. unfold scale_after. rewrite DecreaseEmulationSpeed_run. reflexivity. Qed.

Lemma scale_after_call_n (m : M unit) (f : double -> double) (h : Host) :
  (forall w, scale_after m h w = f (g_fpsScale (globals w))) ->
  forall n w,
    scale_after (call_n n m) h w = Nat.iter n f (g_fpsScale (globals w)).
Proof.
  intros Hm n. induction n as [| k IH]; intros w.
  - reflexivity.
  - rewrite Nat.iter_succ_r. rewrite <- Hm.
    unfold scale_after in *. simpl call_n. unfold bind, ret.
    destruct (m h w) as [a w1]. simpl snd.
    specialize (IH w1). destruct (call_n k m h w1) as [l w2].
    simpl in *. exact IH.
Qed.

Lemma switch_scale (a b c d e cmd : Z) (h : Host) (w : World) :
  let g := g_fpsScale (globals w) in
  let g' := scale_after (FCEUD_SetEmulationSpeed a b c d e cmd) h w in
  g' = Slowest \/ g' = step_slower g \/ g' = Normal \/
  g' = step_faster g \/ g' = Fastest \/ g' = g.
Proof.
  unfold scale_after, FCEUD_SetEmulationSpeed, preset_switch, bind, store, ret.
  simpl.
  destruct (cmd =? a); [simpl; auto |].
  destruct (cmd =? b); [rewrite DecreaseEmulationSpeed_run; simpl; auto |].
  destruct (cmd =? c); [simpl; auto |].
  destruct (cmd =? d); [rewrite IncreaseEmulationSpeed_run; simpl; auto 6 |].
  destruct (cmd =? e); simpl; auto 7.
Qed.

(** ** The pacing loop *)

(** C5: once the scale has reached [Fastest], any number of consecutive
    calls of [SpeedThrottle] all return [WAIT_COMPLETE] and leave the whole
    world as it was: no clock reading, no sleep, and [Lasttime],
    [Nexttime], [InFrame] untouched. *)
Theorem SpeedThrottle_unthrottled (h : Host) (w : World) (n : nat) :
  leb Fastest (g_fpsScale (globals w)) = true ->
  call_n n SpeedThrottle h w = (repeat WAIT_COMPLETE n, w).
Proof.
  intros Hfast. induction n as [| k IH]; simpl.
  - reflexivity.
  - unfold bind. rewrite (SpeedThrottle_fast_path h w Hfast).
    rewrite IH. reflexivity.
Qed.

(** C6: whatever the pacing state, the clock readings and the scale, one
    call of [SpeedThrottle] hands [SDL_Delay] at most 50 ms, in total and
    in each call of it. *)
Theorem SpeedThrottle_sleep_capped (h : Host) (w : World) :
  exists evs,
    trace (snd (SpeedThrottle h w)) = trace w ++ evs /\
    slept evs <= 50 /\
    forall ms, In (SDL_Delay_call ms) evs -> 0 < ms <= 50.
Proof.
  run_throttle. split_ifs; rewrite <- ?app_assoc; simpl;
    (eexists; split; [try reflexivity; symmetry; apply app_nil_r |]);
    simpl; (split; [lia |]);
    intros ms Hin; simpl in Hin;
    repeat (destruct Hin as [Hin | Hin]; [try discriminate Hin |]);
    try contradiction; try (inversion Hin; subst; lia).
Qed.

(** C7: in a throttled call (scale below [Fastest]) the result is
    [WAIT_COMPLETE] exactly when the time left to the deadline, before it
    is capped, is at most 50 ms, and then [InFrame] is cleared and
    [Lasttime] is the clock reading taken after the sleep; the result is
    [WAIT_PENDING] exactly when more than 50 ms are left, and then the
    window stays in progress with the same start and deadline. *)
Theorem SpeedThrottle_completion (h : Host) (w : World) :
  leb (of_Z 32) (g_fpsScale (globals w)) = false ->
  let r := fst (SpeedThrottle h w) in
  let g' := globals (snd (SpeedThrottle h w)) in
  (r = WAIT_COMPLETE <-> remaining h w <= 50) /\
  (r = WAIT_PENDING <-> 50 < remaining h w) /\
  (remaining h w <= 50 ->
     InFrame g' = 0 /\
     Lasttime g' = wrap_uint64 (ticks h (S (cur_time_index w))) /\
     clock_reads (snd (SpeedThrottle h w)) = S (S (cur_time_index w))) /\
  (50 < remaining h w ->
     InFrame g' <> 0 /\
     Lasttime g' = window_start h w /\
     Nexttime g' = deadline h w /\
     clock_reads (snd (SpeedThrottle h w)) = S (cur_time_index w)).
Proof.
  intros Hslow.
  unfold SpeedThrottle, bind, load. rewrite Hslow.
  unfold remaining, deadline, window_start, cur_time_index,
         WAIT_COMPLETE, WAIT_PENDING.
  unfold bind, load, store, when, SDL_GetTicks, SDL_Delay,
         emit, assign_uint64, ret; simpl.
  destruct (Lasttime (globals w) =? 0) eqn:Hlast; simpl;
    destruct (InFrame (globals w) =? 0) eqn:Hin; simpl;
    rewrite ?Hlast, ?Hin; simpl.
  all: split_ifs; rewrite ?Hin; simpl.
  all: repeat split; intros; try lia; try discriminate; try reflexivity.
Qed.

(** ** The budget calculator *)

(** C9: for every native rate and every scale, [RefreshThrottleFPS] stores
    [1.0 / ((fps / 16777216.0) * g_fpsScale)] in [desired_frametime] and
    zeroes [Lasttime], [Nexttime] and [InFrame]; the scale and [MaxSpeed]
    are kept, the only call made is the query of the native rate, and
    the function returns in every state. *)
Theorem RefreshThrottleFPS_budget (h : Host) (w : World) :
  let out := RefreshThrottleFPS h w in
  let g' := globals (snd out) in
  desired_frametime g' =
    div (of_Z 1)
        (mul (div (of_Z (desired_fps h)) (of_Z 16777216))
             (g_fpsScale (globals w))) /\
  Lasttime g' = 0 /\ Nexttime g' = 0 /\ InFrame g' = 0 /\
  g_fpsScale g' = g_fpsScale (globals w) /\
  MaxSpeed g' = MaxSpeed (globals w) /\
  trace (snd out) = trace w ++ [FCEUI_GetDesiredFPS_call (desired_fps h)] /\
  clock_reads (snd out) = clock_reads w /\
  fst out = tt.
Proof.
  rewrite RefreshThrottleFPS_run. simpl. unfold frame_budget.
  repeat split.
Qed.

(** C1, on inputs that break it: with a native rate of -1 Hz at normal
    speed, [RefreshThrottleFPS] leaves the budget [desired_frametime] at
    -1 second; the clamp of lines 41-43 sets the local [T] to 1 and [T] is
    dropped.  With the NTSC rate at 32x, [T] is 0 and stays 0. *)
Theorem RefreshThrottleFPS_budget_not_clamped :
  let w' := snd (RefreshThrottleFPS host_negative world_start) in
  value (desired_frametime (globals w')) = Some (-1)%Q /\
  ltb (desired_frametime (globals w')) (of_Z 0) = true /\
  fst (RefreshThrottleFPS_body host_negative world_start) = Some 1 /\
  fst (RefreshThrottleFPS_body host_ntsc world_fastest) = Some 0.
Proof.
  cbv zeta. rewrite RefreshThrottleFPS_run, !RefreshThrottleFPS_body_run.
  repeat split; vm_compute; reflexivity.
Qed.

(** ** The speed adjusters *)

(** C8: [LOGMUL] is the cube root of 2 cut to a double (its cube is below
    2, that of the next double is above).  [IncreaseEmulationSpeed]
    multiplies the scale by it and caps the product at [Fastest],
    [DecreaseEmulationSpeed] divides the scale by it and raises the
    quotient to [Slowest].  Three steps up from 1.0 give 2 within 2^-49,
    three steps down give one half within 2^-51. *)
Theorem LOGMUL_three_steps (h : Host) (w : World) :
  let g := g_fpsScale (globals w) in
  let at_normal :=
    mkWorld (with_g_fpsScale Normal (globals w)) (clock_reads w) (trace w) in
  (exists L, value LOGMUL = Some L /\
             (L ^ 3 < 2)%Q /\ (2 < (L + 1 / 2 ^ 52) ^ 3)%Q) /\
  scale_after IncreaseEmulationSpeed h w =
    (if ltb Fastest (mul g LOGMUL) then Fastest else mul g LOGMUL) /\
  scale_after DecreaseEmulationSpeed h w =
    (if ltb (div g LOGMUL) Slowest then Slowest else div g LOGMUL) /\
  (exists x,
     value (scale_after (call_n 3 IncreaseEmulationSpeed) h at_normal) = Some x /\
     (2 - 1 / 2 ^ 49 <= x <= 2 + 1 / 2 ^ 49)%Q) /\
  (exists y,
     value (scale_after (call_n 3 DecreaseEmulationSpeed) h at_normal) = Some y /\
     (1 / 2 - 1 / 2 ^ 51 <= y <= 1 / 2 + 1 / 2 ^ 51)%Q).
Proof.
  intros g at_normal.
  split.
  { eexists. split; [vm_compute; reflexivity |].
    split; vm_compute; reflexivity. }
  split; [apply scale_after_Increase |].
  split; [apply scale_after_Decrease |].
  split.
  - rewrite (scale_after_call_n _ step_faster h (scale_after_Increase h)).
    eexists. split; [vm_compute; reflexivity |].
    split; vm_compute; discriminate.
  - rewrite (scale_after_call_n _ step_slower h (scale_after_Decrease h)).
    eexists. split; [vm_compute; reflexivity |].
    split; vm_compute; discriminate.
Qed.

(** C2: from a scale within [[Slowest, Fastest]], every adjuster leaves a
    scale within [[Slowest, Fastest]]: one step up or down, a percentage,
    any command of [FCEUD_SetEmulationSpeed], and any number of steps up or
    of steps down in a row, after which the scale still stands for a
    rational between 1/64 and 32. *)
Theorem adjusters_keep_range (h : Host) (w : World) :
  in_range (g_fpsScale (globals w)) ->
  in_range (scale_after IncreaseEmulationSpeed h w) /\
  in_range (scale_after DecreaseEmulationSpeed h w) /\
  (forall p, - 2 ^ 31 <= p < 2 ^ 31 ->
     in_range (scale_after (CustomEmulationSpeed p) h w)) /\
  (forall a b c d e cmd,
     in_range (scale_after (FCEUD_SetEmulationSpeed a b c d e cmd) h w)) /\
  (forall n,
     in_range (scale_after (call_n n IncreaseEmulationSpeed) h w) /\
     within_bounds (scale_after (call_n n IncreaseEmulationSpeed) h w)) /\
  (forall n,
     in_range (scale_after (call_n n DecreaseEmulationSpeed) h w) /\
     within_bounds (scale_after (call_n n DecreaseEmulationSpeed) h w)).
Proof.
  intros Hg.
  split; [rewrite scale_after_Increase; apply step_faster_in_range; exact Hg |].
  split; [rewrite scale_after_Decrease; apply step_slower_in_range; exact Hg |].
  split.
  { intros p Hp. unfold scale_after.
    destruct (Z.lt_ge_cases p 1) as [Hlt | Hge].
    - rewrite CustomEmulationSpeed_reject by exact Hlt. exact Hg.
    - rewrite CustomEmulationSpeed_run by exact Hge. simpl.
      apply percent_scale_by_cases. lia. }
  split.
  { intros a b c d e cmd.
    destruct (switch_scale a b c d e cmd h w) as [H | [H | [H | [H | [H | H]]]]];
      rewrite H.
    - apply in_range_Slowest.
    - apply step_slower_in_range; exact Hg.
    - apply in_range_Normal.
    - apply step_faster_in_range; exact Hg.
    - apply in_range_Fastest.
    - exact Hg. }
  split.
  - intros n. rewrite (scale_after_call_n _ step_faster h (scale_after_Increase h)).
    assert (Hn : in_range (Nat.iter n step_faster (g_fpsScale (globals w))))
      by (apply iter_in_range; [apply step_faster_in_range | exact Hg]).
    split; [exact Hn | apply in_range_value; exact Hn].
  - intros n. rewrite (scale_after_call_n _ step_slower h (scale_after_Decrease h)).
    assert (Hn : in_range (Nat.iter n step_slower (g_fpsScale (globals w))))
      by (apply iter_in_range; [apply step_slower_in_range | exact Hg]).
    split; [exact Hn | apply in_range_value; exact Hn].
Qed.

(** C4: [CustomEmulationSpeed] returns -1 exactly when the percentage is
    below 1, and then changes nothing.  For a percentage of at least 1 it
    returns 0 and the scale becomes [p / 100.0] clamped to
    [[Slowest, Fastest]]: [Slowest] for 1, the quotient from 2 to 3200,
    [Fastest] above.  50 gives exactly one half and 10000 gives 32. *)
Theorem CustomEmulationSpeed_percent (h : Host) (w : World) (p : Z) :
  - 2 ^ 31 <= p < 2 ^ 31 ->
  let out := CustomEmulationSpeed p h w in
  let scale' := g_fpsScale (globals (snd out)) in
  let x := div (of_Z p) (of_Z 100) in
  (fst out = -1 <-> p < 1) /\
  (p < 1 -> snd out = w) /\
  (1 <= p ->
     fst out = 0 /\
     in_range scale' /\
     (ltb x Slowest = true -> scale' = Slowest) /\
     (ltb Fastest x = true -> scale' = Fastest) /\
     (leb Slowest x = true -> leb x Fastest = true -> scale' = x) /\
     scale' = percent_scale_cases p) /\
  (p = 50 -> value scale' = Some (1 # 2)%Q) /\
  (p = 10000 -> scale' = Fastest).
Proof.
  intros Hp. simpl.
  destruct (Z.lt_ge_cases p 1) as [Hlt | Hge].
  - rewrite CustomEmulationSpeed_reject by exact Hlt. simpl.
    repeat split; intros; try lia; reflexivity.
  - rewrite CustomEmulationSpeed_run by exact Hge. simpl.
    destruct (percent_scale_by_cases p ltac:(lia)) as [Hcases Hrange].
    destruct (percent_scale_clamps p) as (Hs & Hf & Hx).
    split; [split; intros; [discriminate | lia] |].
    split; [intros; lia |].
    split.
    { intros _. split; [reflexivity |]. split; [exact Hrange |].
      split; [exact Hs |]. split; [exact Hf |]. split; [exact Hx | exact Hcases]. }
    split; intros ->; reflexivity.
Qed.

(** ** The presets *)

Section PresetFacts.

Variables EMUSPEED_SLOWEST EMUSPEED_SLOWER EMUSPEED_NORMAL
          EMUSPEED_FASTER EMUSPEED_FASTEST : Z.

Hypothesis labels_distinct :
  NoDup (presets EMUSPEED_SLOWEST EMUSPEED_SLOWER EMUSPEED_NORMAL
                 EMUSPEED_FASTER EMUSPEED_FASTEST).

Lemma labels_pairwise :
  EMUSPEED_SLOWEST <> EMUSPEED_SLOWER /\ EMUSPEED_SLOWEST <> EMUSPEED_NORMAL /\
  EMUSPEED_SLOWEST <> EMUSPEED_FASTER /\ EMUSPEED_SLOWEST <> EMUSPEED_FASTEST /\
  EMUSPEED_SLOWER <> EMUSPEED_NORMAL /\ EMUSPEED_SLOWER <> EMUSPEED_FASTER /\
  EMUSPEED_SLOWER <> EMUSPEED_FASTEST /\ EMUSPEED_NORMAL <> EMUSPEED_FASTER /\
  EMUSPEED_NORMAL <> EMUSPEED_FASTEST /\ EMUSPEED_FASTER <> EMUSPEED_FASTEST.
Proof.
  pose proof labels_distinct as H. unfold presets in H.
  repeat rewrite NoDup_cons_iff in H. simpl in H.
  repeat split; intro; intuition congruence.
Qed.

(** C10: [EMUSPEED_SLOWER] and [EMUSPEED_FASTER] recalculate the budget
    and display the speed twice in one call, first inside
    [DecreaseEmulationSpeed] or [IncreaseEmulationSpeed] and again after
    the [switch]; [EMUSPEED_SLOWEST], [EMUSPEED_NORMAL] and
    [EMUSPEED_FASTEST] do each once.  The events of the call are the
    queries of the core and the messages, in this order, each message
    with the percentage of the scale the call leaves.  Each
    recalculation takes effect: the delegated call already leaves the
    budget of the new scale and a cleared pacing window, the second
    recalculation leaves the same variables again, and every preset ends
    with the budget of the scale it has set and a cleared window. *)
Theorem SetEmulationSpeed_refresh_count (h : Host) (w : World) (cmd : Z) :
  let w0 := mkWorld (with_MaxSpeed false (globals w)) (clock_reads w) (trace w) in
  let w' := snd (FCEUD_SetEmulationSpeed
                   EMUSPEED_SLOWEST EMUSPEED_SLOWER EMUSPEED_NORMAL
                   EMUSPEED_FASTER EMUSPEED_FASTEST cmd h w) in
  let query := FCEUI_GetDesiredFPS_call (desired_fps h) in
  let message :=
    FCEU_DispMessage_call speed_message 0
      (mul (g_fpsScale (globals w')) (of_Z 100)) in
  exists evs,
    trace w' = trace w ++ evs /\
    (cmd = EMUSPEED_SLOWER \/ cmd = EMUSPEED_FASTER ->
       recalculations evs = 2%nat /\ notifications evs = 2%nat /\
       evs = [query; message; query; message] /\
       exists w1,
         (cmd = EMUSPEED_SLOWER -> w1 = snd (DecreaseEmulationSpeed h w0)) /\
         (cmd = EMUSPEED_FASTER -> w1 = snd (IncreaseEmulationSpeed h w0)) /\
         trace w1 = trace w ++ [query; message] /\
         fresh_budget h (globals w1) /\
         globals w' = globals w1) /\
    (cmd = EMUSPEED_SLOWEST \/ cmd = EMUSPEED_NORMAL \/ cmd = EMUSPEED_FASTEST ->
       recalculations evs = 1%nat /\ notifications evs = 1%nat /\
       evs = [query; message]) /\
    (In cmd (presets EMUSPEED_SLOWEST EMUSPEED_SLOWER EMUSPEED_NORMAL
                     EMUSPEED_FASTER EMUSPEED_FASTEST) ->
       fresh_budget h (globals w') /\
       desired_frametime (globals w') =
         div (of_Z 1)
             (mul (div (of_Z (desired_fps h)) (of_Z 16777216))
                  (g_fpsScale (globals w')))).
Proof.
  pose proof labels_pairwise as Hd.
  cbv zeta. run_preset.
  destruct (Z.eqb_spec cmd EMUSPEED_SLOWEST);
    [| destruct (Z.eqb_spec cmd EMUSPEED_SLOWER);
       [| destruct (Z.eqb_spec cmd EMUSPEED_NORMAL);
          [| destruct (Z.eqb_spec cmd EMUSPEED_FASTER);
             [| destruct (Z.eqb_spec cmd EMUSPEED_FASTEST)]]]].
  all: rewrite ?DecreaseEmulationSpeed_run, ?IncreaseEmulationSpeed_run;
    unfold bind, load, FCEU_DispMessage, emit, ret; simpl;
    rewrite <- ?app_assoc; simpl;
    (eexists; split; [try reflexivity; symmetry; apply app_nil_r |]).
  all: split; [| split];
    intros Hc; try (exfalso; clear labels_distinct; intuition congruence).
  all: simpl; repeat split; try reflexivity.
  all: eexists;
    (split;
     [ intros Hc';
       first [ solve [exfalso; clear labels_distinct; intuition congruence]
             | reflexivity ]
     | split;
       [ intros Hc';
         first [ solve [exfalso; clear labels_distinct; intuition congruence]
               | reflexivity ]
       | repeat split; reflexivity ] ]).
Qed.

(** C3, as the code has it: a command outside the five presets changes
    nothing but [MaxSpeed], which it clears; it makes no call at all (no
    recalculation, no notification).  A preset leaves [MaxSpeed] true
    exactly when it is [EMUSPEED_FASTEST]. *)
Theorem SetEmulationSpeed_MaxSpeed (h : Host) (w : World) (cmd : Z) :
  let w' := snd (FCEUD_SetEmulationSpeed
                    EMUSPEED_SLOWEST EMUSPEED_SLOWER EMUSPEED_NORMAL
                    EMUSPEED_FASTER EMUSPEED_FASTEST cmd h w) in
  (~ In cmd (presets EMUSPEED_SLOWEST EMUSPEED_SLOWER EMUSPEED_NORMAL
                     EMUSPEED_FASTER EMUSPEED_FASTEST) ->
     globals w' = with_MaxSpeed false (globals w) /\
     trace w' = trace w /\ clock_reads w' = clock_reads w) /\
  (In cmd (presets EMUSPEED_SLOWEST EMUSPEED_SLOWER EMUSPEED_NORMAL
                   EMUSPEED_FASTER EMUSPEED_FASTEST) ->
     MaxSpeed (globals w') = (cmd =? EMUSPEED_FASTEST)).
Proof.
  pose proof labels_pairwise as Hd.
  unfold presets. simpl In.
  run_preset.
  destruct (Z.eqb_spec cmd EMUSPEED_SLOWEST);
    [| destruct (Z.eqb_spec cmd EMUSPEED_SLOWER);
       [| destruct (Z.eqb_spec cmd EMUSPEED_NORMAL);
          [| destruct (Z.eqb_spec cmd EMUSPEED_FASTER);
             [| destruct (Z.eqb_spec cmd EMUSPEED_FASTEST)]]]].
  all: rewrite ?DecreaseEmulationSpeed_run, ?IncreaseEmulationSpeed_run;
    unfold bind, load, FCEU_DispMessage, emit, ret; simpl.
  all: split; intros Hc; try (exfalso; clear labels_distinct; intuition congruence).
  all: try (destruct (Z.eqb_spec cmd EMUSPEED_FASTEST);
            [exfalso; clear labels_distinct; intuition congruence | reflexivity]).
  all: try reflexivity.
  repeat split.
Qed.

End PresetFacts.

(** ** The statements on sample inputs *)

Lemma presets_0_to_4_distinct : NoDup (presets 0 1 2 3 4).
Proof.
  unfold presets.
  repeat (apply NoDup_cons; [simpl; lia |]). apply NoDup_nil.
Defined.

Lemma SpeedThrottle_unthrottled_at_fastest :
  leb Fastest (g_fpsScale (globals world_fastest)) = true /\
  call_n 3 SpeedThrottle host_ntsc world_fastest =
    (repeat WAIT_COMPLETE 3, world_fastest).
Proof.
  split; [reflexivity |].
  apply (SpeedThrottle_unthrottled host_ntsc world_fastest 3). reflexivity.
Defined.

Lemma SpeedThrottle_sleep_capped_at_start :
  exists evs,
    trace (snd (SpeedThrottle host_ntsc world_start)) = trace world_start ++ evs /\
    slept evs <= 50 /\
    forall ms, In (SDL_Delay_call ms) evs -> 0 < ms <= 50.
Proof.
  exact (SpeedThrottle_sleep_capped host_ntsc world_start).
Defined.

Lemma SpeedThrottle_completion_at_start :
  leb (of_Z 32) (g_fpsScale (globals world_start)) = false /\
  remaining host_ntsc world_start <= 50 /\
  fst (SpeedThrottle host_ntsc world_start) = WAIT_COMPLETE.
Proof.
  split; [reflexivity |].
  assert (Hrem : remaining host_ntsc world_start <= 50)
    by (vm_compute; discriminate).
  split; [exact Hrem |].
  apply (proj1 (SpeedThrottle_completion host_ntsc world_start eq_refl)).
  exact Hrem.
Defined.

Lemma adjusters_keep_range_at_start :
  in_range (g_fpsScale (globals world_start)) /\
  in_range (scale_after IncreaseEmulationSpeed host_ntsc world_start).
Proof.
  split.
  - repeat split.
  - apply (proj1 (adjusters_keep_range host_ntsc world_start
                    (conj eq_refl (conj eq_refl eq_refl)))).
Defined.

Lemma CustomEmulationSpeed_percent_at_50 :
  - 2 ^ 31 <= 50 < 2 ^ 31 /\
  fst (CustomEmulationSpeed 50 host_ntsc world_start) = 0 /\
  in_range (g_fpsScale (globals (snd (CustomEmulationSpeed 50 host_ntsc
                                        world_start)))).
Proof.
  split; [lia |].
  destruct (CustomEmulationSpeed_percent host_ntsc world_start 50 ltac:(lia))
    as (_ & _ & Hok & _).
  destruct (Hok ltac:(lia)) as (Hret & Hrange & _).
  split; [exact Hret | exact Hrange].
Defined.

Lemma SetEmulationSpeed_refresh_count_at_SLOWER :
  NoDup (presets 0 1 2 3 4) /\
  exists evs,
    trace (snd (FCEUD_SetEmulationSpeed 0 1 2 3 4 1 host_ntsc world_start)) =
      trace world_start ++ evs /\
    recalculations evs = 2%nat /\ notifications evs = 2%nat /\
    fresh_budget host_ntsc
      (globals (snd (FCEUD_SetEmulationSpeed 0 1 2 3 4 1 host_ntsc world_start))).
Proof.
  split; [exact presets_0_to_4_distinct |].
  pose proof (SetEmulationSpeed_refresh_count 0 1 2 3 4 presets_0_to_4_distinct
                host_ntsc world_start 1) as H.
  cbv zeta in H. destruct H as (evs & Htrace & Htwice & _ & Hfresh).
  exists evs. split; [exact Htrace |].
  destruct (Htwice (or_introl eq_refl)) as (Hr & Hn & _).
  split; [exact Hr |]. split; [exact Hn |].
  apply Hfresh. right. left. reflexivity.
Defined.

Lemma SetEmulationSpeed_MaxSpeed_at_FASTEST :
  NoDup (presets 0 1 2 3 4) /\
  In 4 (presets 0 1 2 3 4) /\
  MaxSpeed (globals (snd (FCEUD_SetEmulationSpeed 0 1 2 3 4 4
                            host_ntsc world_start))) = true.
Proof.
  split; [exact presets_0_to_4_distinct |].
  split; [simpl; lia |].
  apply (proj2 (SetEmulationSpeed_MaxSpeed 0 1 2 3 4 presets_0_to_4_distinct
                  host_ntsc world_start 4)).
  simpl; lia.
Defined.

Lemma SetEmulationSpeed_unknown_changes_MaxSpeed :
  ~ In 5 (presets 0 1 2 3 4) /\
  MaxSpeed (globals world_fastest) = true /\
  MaxSpeed (globals (snd (FCEUD_SetEmulationSpeed 0 1 2 3 4 5
                            host_ntsc world_fastest))) = false /\
  globals (snd (FCEUD_SetEmulationSpeed 0 1 2 3 4 5 host_ntsc world_fastest))
    <> globals world_fastest.
Proof.
  split; [simpl; lia |].
  split; [reflexivity |].
  split; [reflexivity |].
  intros H. apply (f_equal MaxSpeed) in H. discriminate H.
Defined.

(** * Further properties

    ** More on binary64 arithmetic *)

(** The same rounding, with the mantissa it carries from. *)
Lemma binary_round_aux_carry (s : bool) (m : positive) (e n : Z) (l : location) :
  0 <= n ->
  Zpos (digits2_pos m) = 53 + n ->
  -1074 <= e + n ->
  e + n + 1 <= 971 ->
  exists m' e',
    binary_round_aux prec emax s (Zpos m) e l = S754_finite s m' e' /\
    Zpos (digits2_pos m') = 53 /\
    ((e' = e + n /\
      (Zpos m' = Zpos m / 2 ^ n \/ Zpos m' = Zpos m / 2 ^ n + 1)) \/
     (e' = e + n + 1 /\ Zpos m' = 2 ^ 52 /\ Zpos m / 2 ^ n + 1 = 2 ^ 53)).
Proof.
  intros Hn Hd Hlo Hhi. unfold binary_round_aux.
  destruct (shr_fexp_normal m e n l Hn Hd Hlo) as (mrs & Hs & Hm).
  rewrite Hs.
  assert (Hb : 2 ^ 52 <= shr_m mrs < 2 ^ (52 + 1)).
  { rewrite Hm. apply div_pow2_bounds; try lia.
    pose proof (digits2_pos_bounds m) as B. rewrite Hd in B.
    replace (53 + n - 1) with (52 + n) in B by lia.
    replace (52 + 1 + n) with (53 + n) by lia. exact B. }
  change (2 ^ (52 + 1)) with 9007199254740992 in Hb.
  change (2 ^ 52) with 4503599627370496 in Hb |- *.
  change (2 ^ 53) with 9007199254740992.
  rewrite <- Hm.
  assert (Hfit : forall p1 : positive,
             4503599627370496 <= Zpos p1 < 9007199254740992 ->
             let '(mrs2, e2) :=
               shr_fexp prec emax (Zpos p1) (e + n) loc_Exact in
             match shr_m mrs2 with
             | Z0 => S754_zero s
             | Zpos m2 =>
                 if e2 <=? emax - prec then S754_finite s m2 e2
                 else S754_infinity s
             | Zneg _ => S754_nan
             end = S754_finite s p1 (e + n) /\
             Zpos (digits2_pos p1) = 53).
  { intros p1 Hp1.
    assert (Hd1 : Zpos (digits2_pos p1) = 53 + 0).
    { apply digits2_pos_unique.
      change (2 ^ (53 + 0 - 1)) with 4503599627370496.
      change (2 ^ (53 + 0)) with 9007199254740992. lia. }
    destruct (shr_fexp_normal p1 (e + n) 0 loc_Exact (Z.le_refl 0) Hd1)
      as (mrs2 & Hs2 & Hm2); [lia |].
    rewrite Hs2, Hm2. change (2 ^ 0) with 1. rewrite Z.div_1_r.
    unfold emax, prec.
    destruct (Z.leb_spec (e + n + 0) (1024 - 53)); [| lia].
    split; [f_equal; lia | exact Hd1]. }
  destruct (round_nearest_even_range (shr_m mrs) (loc_of_shr_record mrs))
    as [Hr | Hr]; rewrite Hr; clear Hr.
  - destruct (shr_m mrs) as [| p1 | p1] eqn:Hp1; try lia.
    specialize (Hfit p1 Hb).
    destruct (shr_fexp prec emax (Zpos p1) (e + n) loc_Exact) as [mrs2 e2].
    destruct Hfit as [Hres Hd1].
    exists p1, (e + n). split; [exact Hres |]. split; [exact Hd1 |].
    left. split; [reflexivity |]. left. reflexivity.
  - destruct (shr_m mrs + 1) as [| p1 | p1] eqn:Hp1; try lia.
    destruct (Z.eq_dec (Zpos p1) 9007199254740992) as [Hov | Hno].
    + assert (Hd1 : Zpos (digits2_pos p1) = 53 + 1).
      { apply digits2_pos_unique. rewrite Hov.
        change (2 ^ (53 + 1 - 1)) with 9007199254740992.
        change (2 ^ (53 + 1)) with 18014398509481984. lia. }
      destruct (shr_fexp_normal p1 (e + n) 1 loc_Exact ltac:(lia) Hd1)
        as (mrs2 & Hs2 & Hm2); [lia |].
      rewrite Hs2, Hm2, Hov.
      change (9007199254740992 / 2 ^ 1) with 4503599627370496.
      unfold emax, prec.
      destruct (Z.leb_spec (e + n + 1) (1024 - 53)); [| lia].
      eexists _, (e + n + 1). split; [reflexivity |]. split; [reflexivity |].
      right. split; [reflexivity |]. split; [reflexivity | lia].
    + assert (Hp : 4503599627370496 <= Zpos p1 < 9007199254740992) by lia.
      specialize (Hfit p1 Hp).
      destruct (shr_fexp prec emax (Zpos p1) (e + n) loc_Exact) as [mrs2 e2].
      destruct Hfit as [Hres Hd1].
      exists p1, (e + n). split; [exact Hres |]. split; [exact Hd1 |].
      left. split; [reflexivity |]. right. lia.
Qed.

(** One multiplication by [LOGMUL] gains at least the factor 1.2599. *)
Lemma mul_LOGMUL_grows (m : positive) (e : Z) :
  Zpos (digits2_pos m) = 53 ->
  -58 <= e <= -47 ->
  exists m' e',
    mul (S754_finite false m e) LOGMUL = S754_finite false m' e' /\
    Zpos (digits2_pos m') = 53 /\
    e <= e' <= e + 2 /\
    12599 * Zpos m <= 10000 * (Zpos m' * 2 ^ (e' - e)).
Proof.
  intros Hd He. pose proof (normal_mantissa m Hd) as B.
  unfold mul, SFmul, LOGMUL. simpl xorb.
  set (M := Zpos (m * 5674179970822794)).
  assert (HM : M = Zpos m * 5674179970822794) by (unfold M; apply Pos2Z.inj_mul).
  destruct (Z.lt_ge_cases M (2 ^ 105)) as [Hs | Hs].
  - assert (Hdm : Zpos (digits2_pos (m * 5674179970822794)) = 53 + 52).
    { apply digits2_pos_unique. fold M. simpl Z.sub. simpl Z.add. lia. }
    destruct (binary_round_aux_carry false (m * 5674179970822794) (e + -52) 52
                loc_Exact ltac:(lia) Hdm)
      as (m' & e' & Hr & Hd' & Hcase); try lia.
    exists m', e'. split; [exact Hr |]. split; [exact Hd' |].
    fold M in Hcase.
    pose proof (Z.mul_succ_div_gt M (2 ^ 52) ltac:(lia)) as Hq.
    pose proof (Z.mul_div_le M (2 ^ 52) ltac:(lia)) as Hq'.
    change (2 ^ 52) with 4503599627370496 in *.
    change (2 ^ 53) with 9007199254740992 in *.
    destruct Hcase as [[-> Hm'] | (-> & Hm' & Hc)].
    + replace (e + -52 + 52 - e) with 0 by lia. change (2 ^ 0) with 1.
      split; lia.
    + replace (e + -52 + 52 + 1 - e) with 1 by lia. change (2 ^ 1) with 2.
      split; lia.
  - assert (Hdm : Zpos (digits2_pos (m * 5674179970822794)) = 53 + 53).
    { apply digits2_pos_unique. fold M. simpl Z.sub. simpl Z.add.
      rewrite HM. split; [lia |].
      change (2 ^ 106) with (9007199254740992 * 9007199254740992). nia. }
    destruct (binary_round_aux_carry false (m * 5674179970822794) (e + -52) 53
                loc_Exact ltac:(lia) Hdm)
      as (m' & e' & Hr & Hd' & Hcase); try lia.
    exists m', e'. split; [exact Hr |]. split; [exact Hd' |].
    fold M in Hcase.
    pose proof (Z.mul_succ_div_gt M (2 ^ 53) ltac:(lia)) as Hq.
    pose proof (Z.mul_div_le M (2 ^ 53) ltac:(lia)) as Hq'.
    change (2 ^ 52) with 4503599627370496 in *.
    change (2 ^ 53) with 9007199254740992 in *.
    destruct Hcase as [[-> Hm'] | (-> & Hm' & Hc)].
    + replace (e + -52 + 53 - e) with 1 by lia. change (2 ^ 1) with 2.
      split; lia.
    + replace (e + -52 + 53 + 1 - e) with 2 by lia. change (2 ^ 2) with 4.
      split; lia.
Qed.

(** One division by [LOGMUL] loses at least the factor 1.2599. *)
Lemma div_LOGMUL_shrinks (m : positive) (e : Z) :
  Zpos (digits2_pos m) = 53 ->
  -58 <= e <= -47 ->
  exists m' e',
    div (S754_finite false m e) LOGMUL = S754_finite false m' e' /\
    Zpos (digits2_pos m') = 53 /\
    e - 1 <= e' <= e + 1 /\
    12599 * (Zpos m' * 2 ^ (e' - e + 1)) <= 20000 * Zpos m.
Proof.
  intros Hd He. pose proof (normal_mantissa m Hd) as B.
  unfold div, SFdiv, SFdiv_core_binary, LOGMUL. simpl xorb. simpl Zdigits2.
  rewrite Hd. change (Zpos (digits2_pos 5674179970822794)) with 53.
  unfold fexp, SpecFloat.emin, prec, emax.
  replace (Z.min (Z.max (53 + e - (53 + -52) - 53) (3 - 1024 - 53)) (e - -52))
    with (e - 1) by lia.
  replace (e - -52 - (e - 1)) with 53 by lia.
  rewrite Z.shiftl_mul_pow2 by lia.
  destruct (Z.div_eucl (Zpos m * 2 ^ 53) 5674179970822794) as [q r] eqn:Hq.
  assert (Hqv : q = Zpos m * 2 ^ 53 / 5674179970822794)
    by (unfold Z.div; rewrite Hq; reflexivity).
  change (2 ^ 53) with 9007199254740992 in Hqv.
  pose proof (Z.mul_div_le (Zpos m * 9007199254740992) 5674179970822794
                ltac:(lia)) as Hle.
  pose proof (Z.mul_succ_div_gt (Zpos m * 9007199254740992) 5674179970822794
                ltac:(lia)) as Hgt.
  rewrite <- Hqv in Hle, Hgt.
  assert (Hqb : 4503599627370496 <= q < 18014398509481984) by lia.
  destruct q as [| pq | pq]; [lia | | lia].
  destruct (Z.lt_ge_cases (Zpos pq) 9007199254740992) as [Hs | Hs].
  - assert (Hdq : Zpos (digits2_pos pq) = 53 + 0).
    { apply digits2_pos_unique. simpl Z.sub. simpl Z.add. lia. }
    destruct (binary_round_aux_carry false pq (e - 1) 0
                (new_location 5674179970822794 r) ltac:(lia) Hdq)
      as (m' & e' & Hr & Hd' & Hcase); try lia.
    exists m', e'. split; [exact Hr |]. split; [exact Hd' |].
    change (2 ^ 0) with 1 in Hcase. rewrite Z.div_1_r in Hcase.
    change (2 ^ 52) with 4503599627370496 in *.
    change (2 ^ 53) with 9007199254740992 in *.
    destruct Hcase as [[-> Hm'] | (-> & Hm' & Hc)].
    + replace (e - 1 + 0 - e + 1) with 0 by lia. change (2 ^ 0) with 1.
      split; lia.
    + replace (e - 1 + 0 + 1 - e + 1) with 1 by lia. change (2 ^ 1) with 2.
      split; lia.
  - assert (Hdq : Zpos (digits2_pos pq) = 53 + 1).
    { apply digits2_pos_unique. simpl Z.sub. simpl Z.add. lia. }
    destruct (binary_round_aux_carry false pq (e - 1) 1
                (new_location 5674179970822794 r) ltac:(lia) Hdq)
      as (m' & e' & Hr & Hd' & Hcase); try lia.
    exists m', e'. split; [exact Hr |]. split; [exact Hd' |].
    pose proof (Z.mul_div_le (Zpos pq) (2 ^ 1) ltac:(lia)) as Hh.
    change (2 ^ 1) with 2 in *.
    change (2 ^ 52) with 4503599627370496 in *.
    change (2 ^ 53) with 9007199254740992 in *.
    destruct Hcase as [[-> Hm'] | (-> & Hm' & Hc)].
    + replace (e - 1 + 1 - e + 1) with 1 by lia. change (2 ^ 1) with 2.
      split; lia.
    + replace (e - 1 + 1 + 1 - e + 1) with 2 by lia. change (2 ^ 2) with 4.
      split; lia.
Qed.

Lemma units_in_range (g : double) :
  in_range g -> 2 ^ 54 <= units g <= 2 ^ 65.
Proof.
  intros Hg. destruct (in_range_parts g Hg) as (m & e & Hgeq & Hd & He & Htop).
  pose proof (normal_mantissa m Hd) as B.
  destruct (Z.eq_dec e (-47)) as [E | E].
  - rewrite (Htop E). vm_compute. split; discriminate.
  - subst g. unfold units.
    exponent_cases e; try lia; simpl Z.add;
      repeat match goal with |- context [2 ^ ?k] =>
        let v := eval vm_compute in (2 ^ k) in change (2 ^ k) with v end;
      lia.
Qed.

Lemma step_faster_Fastest : step_faster Fastest = Fastest.
Proof. vm_compute. reflexivity. Qed.

Lemma step_slower_Slowest : step_slower Slowest = Slowest.
Proof. vm_compute. reflexivity. Qed.

Lemma step_faster_grows (g : double) :
  in_range g ->
  step_faster g = Fastest \/ 12599 * units g <= 10000 * units (step_faster g).
Proof.
  intros Hg. destruct (in_range_parts g Hg) as (m & e & -> & Hd & He & _).
  destruct (mul_LOGMUL_grows m e Hd He) as (m' & e' & Hr & Hd' & He' & Hgrow).
  unfold step_faster. rewrite Hr.
  destruct (ltb Fastest (S754_finite false m' e')); [left; reflexivity | right].
  unfold units.
  replace (e' + 60) with ((e' - e) + (e + 60)) by lia.
  rewrite (Z.pow_add_r 2 (e' - e) (e + 60)) by lia.
  assert (Hp : 0 < 2 ^ (e + 60)) by (apply Z.pow_pos_nonneg; lia).
  nia.
Qed.

Lemma step_slower_shrinks (g : double) :
  in_range g ->
  step_slower g = Slowest \/ 12599 * units (step_slower g) <= 10000 * units g.
Proof.
  intros Hg. destruct (in_range_parts g Hg) as (m & e & -> & Hd & He & _).
  destruct (div_LOGMUL_shrinks m e Hd He) as (m' & e' & Hr & Hd' & He' & Hshr).
  unfold step_slower. rewrite Hr.
  destruct (ltb (S754_finite false m' e') Slowest); [left; reflexivity | right].
  unfold units.
  replace (e' + 60) with ((e' - e + 1) + (e + 59)) by lia.
  replace (e + 60) with (1 + (e + 59)) by lia.
  rewrite (Z.pow_add_r 2 (e' - e + 1) (e + 59)) by lia.
  rewrite (Z.pow_add_r 2 1 (e + 59)) by lia.
  change (2 ^ 1) with 2.
  assert (Hp : 0 < 2 ^ (e + 59)) by (apply Z.pow_pos_nonneg; lia).
  nia.
Qed.

Lemma iter_step_faster_Fastest (n : nat) : Nat.iter n step_faster Fastest = Fastest.
Proof.
  induction n as [| n IH]; simpl; [reflexivity |].
  rewrite IH. apply step_faster_Fastest.
Qed.

Lemma iter_step_slower_Slowest (n : nat) : Nat.iter n step_slower Slowest = Slowest.
Proof.
  induction n as [| n IH]; simpl; [reflexivity |].
  rewrite IH. apply step_slower_Slowest.
Qed.

Lemma iter_step_faster_units (n : nat) (g : double) :
  in_range g ->
  Nat.iter n step_faster g = Fastest \/
  12599 ^ Z.of_nat n * units g <= 10000 ^ Z.of_nat n * units (Nat.iter n step_faster g).
Proof.
  intros Hg. induction n as [| n IH].
  - right. simpl. lia.
  - simpl Nat.iter. destruct IH as [IH | IH].
    + left. rewrite IH. apply step_faster_Fastest.
    + assert (Hn : in_range (Nat.iter n step_faster g))
        by (apply iter_in_range; [apply step_faster_in_range | exact Hg]).
      destruct (step_faster_grows _ Hn) as [Hf | Hstep]; [left; exact Hf | right].
      rewrite Nat2Z.inj_succ, !Z.pow_succ_r by lia.
      assert (0 < 12599 ^ Z.of_nat n) by (apply Z.pow_pos_nonneg; lia).
      assert (0 < 10000 ^ Z.of_nat n) by (apply Z.pow_pos_nonneg; lia).
      nia.
Qed.

Lemma iter_step_slower_units (n : nat) (g : double) :
  in_range g ->
  Nat.iter n step_slower g = Slowest \/
  12599 ^ Z.of_nat n * units (Nat.iter n step_slower g) <= 10000 ^ Z.of_nat n * units g.
Proof.
  intros Hg. induction n as [| n IH].
  - right. simpl. lia.
  - simpl Nat.iter. destruct IH as [IH | IH].
    + left. rewrite IH. apply step_slower_Slowest.
    + assert (Hn : in_range (Nat.iter n step_slower g))
        by (apply iter_in_range; [apply step_slower_in_range | exact Hg]).
      destruct (step_slower_shrinks _ Hn) as [Hf | Hstep]; [left; exact Hf | right].
      rewrite Nat2Z.inj_succ, !Z.pow_succ_r by lia.
      assert (0 < 12599 ^ Z.of_nat n) by (apply Z.pow_pos_nonneg; lia).
      assert (0 < 10000 ^ Z.of_nat n) by (apply Z.pow_pos_nonneg; lia).
      nia.
Qed.

Lemma steps_up_reach_Fastest (g : double) (n : nat) :
  in_range g -> (34 <= n)%nat -> Nat.iter n step_faster g = Fastest.
Proof.
  intros Hg Hn.
  assert (H34 : Nat.iter 34 step_faster g = Fastest).
  { destruct (iter_step_faster_units 34 g Hg) as [H | H]; [exact H | exfalso].
    pose proof (units_in_range g Hg) as Hu.
    assert (Hi : in_range (Nat.iter 34 step_faster g))
      by (apply iter_in_range; [apply step_faster_in_range | exact Hg]).
    pose proof (units_in_range _ Hi) as Hv.
    set (u := units g) in *. set (v := units (Nat.iter 34 step_faster g)) in *.
    clearbody u v. clear - H Hu Hv.
    change (Z.of_nat 34) with 34 in H.
    assert (Ha : 12599 ^ 34 * 2 ^ 54 <= 12599 ^ 34 * u)
      by (apply Z.mul_le_mono_nonneg_l; [vm_compute; discriminate | lia]).
    assert (Hb : 10000 ^ 34 * v <= 10000 ^ 34 * 2 ^ 65)
      by (apply Z.mul_le_mono_nonneg_l; [vm_compute; discriminate | lia]).
    assert (Hc : 10000 ^ 34 * 2 ^ 65 < 12599 ^ 34 * 2 ^ 54)
      by (vm_compute; reflexivity).
    lia. }
  replace n with ((n - 34) + 34)%nat by lia.
  rewrite Nat.iter_add, H34. apply iter_step_faster_Fastest.
Qed.

Lemma steps_down_reach_Slowest (g : double) (n : nat) :
  in_range g -> (34 <= n)%nat -> Nat.iter n step_slower g = Slowest.
Proof.
  intros Hg Hn.
  assert (H34 : Nat.iter 34 step_slower g = Slowest).
  { destruct (iter_step_slower_units 34 g Hg) as [H | H]; [exact H | exfalso].
    pose proof (units_in_range g Hg) as Hu.
    assert (Hi : in_range (Nat.iter 34 step_slower g))
      by (apply iter_in_range; [apply step_slower_in_range | exact Hg]).
    pose proof (units_in_range _ Hi) as Hv.
    set (u := units g) in *. set (v := units (Nat.iter 34 step_slower g)) in *.
    clearbody u v. clear - H Hu Hv.
    change (Z.of_nat 34) with 34 in H.
    assert (Ha : 12599 ^ 34 * 2 ^ 54 <= 12599 ^ 34 * v)
      by (apply Z.mul_le_mono_nonneg_l; [vm_compute; discriminate | lia]).
    assert (Hb : 10000 ^ 34 * u <= 10000 ^ 34 * 2 ^ 65)
      by (apply Z.mul_le_mono_nonneg_l; [vm_compute; discriminate | lia]).
    assert (Hc : 10000 ^ 34 * 2 ^ 65 < 12599 ^ 34 * 2 ^ 54)
      by (vm_compute; reflexivity).
    lia. }
  replace n with ((n - 34) + 34)%nat by lia.
  rewrite Nat.iter_add, H34. apply iter_step_slower_Slowest.
Qed.

Lemma steps_33_not_enough :
  Nat.iter 33 step_faster Slowest <> Fastest /\
  Nat.iter 33 step_slower Fastest <> Slowest.
Proof. split; vm_compute; discriminate. Qed.

Lemma step_faster_raises (g : double) :
  in_range g -> g = Fastest \/ ltb g (step_faster g) = true.
Proof.
  intros Hg. destruct (in_range_parts g Hg) as (m & e & Hgeq & Hd & He & Htop).
  destruct (Z.eq_dec e (-47)) as [E | E]; [left; apply Htop; exact E | right].
  subst g. pose proof (normal_mantissa m Hd) as B.
  destruct (mul_LOGMUL_grows m e Hd He) as (m' & e' & Hr & Hd' & He' & Hgrow).
  unfold step_faster. rewrite Hr.
  destruct (ltb Fastest (S754_finite false m' e')).
  - unfold Fastest. apply ltb_pos_finite. lia.
  - apply ltb_pos_finite.
    destruct (Z.eq_dec e' e) as [-> | Hne]; [right | left; lia].
    replace (e - e) with 0 in Hgrow by lia. change (2 ^ 0) with 1 in Hgrow.
    split; [reflexivity | lia].
Qed.

Lemma step_slower_lowers (g : double) :
  in_range g -> g = Slowest \/ ltb (step_slower g) g = true.
Proof.
  intros Hg. destruct (in_range_parts g Hg) as (m & e & Hgeq & Hd & He & Htop).
  pose proof (normal_mantissa m Hd) as B.
  destruct (Z.eq_dec e (-58)) as [E | E];
    [destruct (Z.eq_dec (Zpos m) 4503599627370496) as [Em | Em] |].
  - left. subst g e. unfold Slowest. f_equal. lia.
  - right. subst g e.
    destruct (div_LOGMUL_shrinks m (-58) Hd ltac:(lia))
      as (m' & e' & Hr & Hd' & He' & Hshr).
    pose proof (normal_mantissa m' Hd') as B'.
    unfold step_slower. rewrite Hr.
    destruct (ltb (S754_finite false m' e') Slowest).
    + unfold Slowest. apply ltb_pos_finite. lia.
    + apply ltb_pos_finite.
      assert (Hc : e' = -59 \/ e' = -58 \/ e' = -57) by lia.
      destruct Hc as [-> | [-> | ->]]; simpl Z.sub in Hshr; simpl Z.add in Hshr.
      * left. lia.
      * right. change (2 ^ 1) with 2 in Hshr. split; [reflexivity | lia].
      * change (2 ^ 2) with 4 in Hshr. lia.
  - right. subst g.
    destruct (div_LOGMUL_shrinks m e Hd He)
      as (m' & e' & Hr & Hd' & He' & Hshr).
    pose proof (normal_mantissa m' Hd') as B'.
    unfold step_slower. rewrite Hr.
    destruct (ltb (S754_finite false m' e') Slowest).
    + unfold Slowest. apply ltb_pos_finite. lia.
    + apply ltb_pos_finite.
      assert (Hc : e' = e - 1 \/ e' = e \/ e' = e + 1) by lia.
      destruct Hc as [-> | [-> | ->]].
      * left. lia.
      * right. replace (e - e + 1) with 1 in Hshr by lia.
        change (2 ^ 1) with 2 in Hshr. split; [reflexivity | lia].
      * replace (e + 1 - e + 1) with 2 in Hshr by lia.
        change (2 ^ 2) with 4 in Hshr. lia.
Qed.

(** A 53-bit mantissa needs no rounding. *)
Lemma shr_fexp_none (m : positive) (e : Z) (l : location) :
  Zpos (digits2_pos m) = 53 ->
  -1074 <= e ->
  shr_fexp prec emax (Zpos m) e l = (shr_record_of_loc (Zpos m) l, e).
Proof.
  intros Hd He. unfold shr_fexp. simpl Zdigits2. rewrite Hd.
  unfold fexp, SpecFloat.emin, prec, emax.
  replace (Z.max (53 + e - 53) (3 - 1024 - 53) - e) with 0 by lia.
  reflexivity.
Qed.

Lemma binary_round_aux_exact (s : bool) (m : positive) (e : Z) :
  Zpos (digits2_pos m) = 53 ->
  -1074 <= e <= 971 ->
  binary_round_aux prec emax s (Zpos m) e loc_Exact = S754_finite s m e.
Proof.
  intros Hd He. unfold binary_round_aux.
  rewrite (shr_fexp_none m e loc_Exact Hd) by lia.
  cbn [shr_record_of_loc shr_m loc_of_shr_record round_nearest_even].
  rewrite (shr_fexp_none m e loc_Exact Hd) by lia.
  cbn [shr_record_of_loc shr_m]. unfold emax, prec.
  destruct (Z.leb_spec e (1024 - 53)); [reflexivity | lia].
Qed.

(** The conversion of a positive integer below 2^52 is exact. *)
Lemma of_Z_exact (p : positive) :
  Zpos (digits2_pos p) < 53 ->
  exists m e,
    of_Z (Zpos p) = S754_finite false m e /\
    Zpos (digits2_pos m) = 53 /\
    e = Zpos (digits2_pos p) - 53 /\
    Zpos m = Zpos p * 2 ^ (- e).
Proof.
  intros Hd. unfold of_Z, binary_normalize, binary_round, shl_align.
  set (d := Zpos (digits2_pos p)) in *.
  assert (Hd1 : 1 <= d) by (unfold d; lia).
  unfold fexp, SpecFloat.emin, prec, emax.
  replace (Z.max (d + 0 - 53) (3 - 1024 - 53) - 0) with (d - 53) by lia.
  replace (Z.max (d + 0 - 53) (3 - 1024 - 53)) with (d - 53) by lia.
  destruct (d - 53) as [| k | k] eqn:Hk; try lia.
  assert (Hm : Zpos (digits2_pos (Pos.iter xO p k)) = 53).
  { apply digits2_pos_unique. rewrite iter_xO_value.
    pose proof (digits2_pos_bounds p) as B. fold d in B.
    assert (E1 : 2 ^ (53 - 1) = 2 ^ (d - 1) * 2 ^ Zpos k)
      by (rewrite <- Z.pow_add_r by lia; f_equal; lia).
    assert (E2 : 2 ^ 53 = 2 ^ d * 2 ^ Zpos k)
      by (rewrite <- Z.pow_add_r by lia; f_equal; lia).
    rewrite E1, E2.
    assert (0 < 2 ^ Zpos k) by (apply Z.pow_pos_nonneg; lia).
    split.
    - apply Z.mul_le_mono_nonneg_r; lia.
    - apply Z.mul_lt_mono_pos_r; lia. }
  rewrite (binary_round_aux_exact false _ _ Hm) by lia.
  exists (Pos.iter xO p k), (Zneg k).
  split; [reflexivity |]. split; [exact Hm |]. split; [reflexivity |].
  rewrite iter_xO_value. reflexivity.
Qed.

Lemma shl_align_value (m : positive) (e ez : Z) :
  ez <= e ->
  shl_align m e ez = (fst (shl_align m e ez), ez) /\
  Zpos (fst (shl_align m e ez)) = Zpos m * 2 ^ (e - ez).
Proof.
  intros Hle. unfold shl_align.
  destruct (ez - e) as [| d | d] eqn:Hd; simpl fst; try lia.
  - replace (e - ez) with 0 by lia. replace ez with e by lia.
    split; [reflexivity | simpl; lia].
  - rewrite iter_xO_value. replace (e - ez) with (Zpos d) by lia.
    split; reflexivity.
Qed.

Lemma div_succ_bounds (a b : Z) :
  0 <= a -> 0 < b -> a / b <= (a + 1) / b <= a / b + 1.
Proof.
  intros Ha Hb. split.
  - apply Z.div_le_mono; lia.
  - replace (a / b + 1) with ((a + 1 * b) / b) by (rewrite Z.div_add by lia; lia).
    apply Z.div_le_mono; lia.
Qed.

Lemma div_pow2_twice (a n k : Z) :
  0 <= n <= k -> a / 2 ^ n / 2 ^ (k - n) = a / 2 ^ k.
Proof.
  intros H.
  assert (0 < 2 ^ n) by (apply Z.pow_pos_nonneg; lia).
  assert (0 < 2 ^ (k - n)) by (apply Z.pow_pos_nonneg; lia).
  rewrite Z.div_div by lia. rewrite <- Z.pow_add_r by lia.
  f_equal. f_equal. lia.
Qed.

Lemma shl_align_noop (m : positive) (e e' : Z) :
  e <= e' -> shl_align m e e' = (m, e).
Proof.
  intros H. unfold shl_align. destruct (e' - e) eqn:E; try reflexivity. lia.
Qed.

(** A clock reading plus a budget in milliseconds, turned into a
    [uint64]: the sum of the reading and of the whole milliseconds of the
    budget, or one more. *)
Lemma add_time_budget (t : Z) (mx : positive) (ex : Z) :
  1 <= t < 2 ^ 32 ->
  Zpos (digits2_pos mx) = 53 ->
  -1074 <= ex <= -22 ->
  exists n,
    to_uint64 (add (of_Z t) (S754_finite false mx ex)) = Some n /\
    t + Zpos mx / 2 ^ (- ex) <= n <= t + Zpos mx / 2 ^ (- ex) + 1.
Proof.
  intros Ht Hdx Hex.
  destruct (digits2_pos_int t 0 32 ltac:(lia) ltac:(simpl; lia)) as (pt & -> & Hpt).
  destruct (of_Z_exact pt ltac:(lia)) as (ml & el & Hof & Hdl & Hel & Hml).
  rewrite Hof. unfold add, SFadd.
  set (ez := Z.min el ex).
  assert (Hez : ez <= el /\ ez <= ex /\ ez <= -21) by (unfold ez; lia).
  destruct (shl_align_value ml el ez ltac:(lia)) as [_ Ha].
  destruct (shl_align_value mx ex ez ltac:(lia)) as [_ Hb].
  set (a := fst (shl_align ml el ez)) in *.
  set (b := fst (shl_align mx ex ez)) in *.
  cbn [cond_Zopp]. change (Zpos a + Zpos b) with (Zpos (a + b)).
  cbn [binary_normalize]. unfold binary_round.
  (* the sum, in units of 2^ez *)
  set (k := - ez).
  assert (Hk : 21 <= k) by (unfold k; lia).
  assert (HK : 0 < 2 ^ k) by (apply Z.pow_pos_nonneg; lia).
  assert (Ha' : Zpos a = Zpos pt * 2 ^ k).
  { rewrite Ha, Hml, <- Z.mul_assoc, <- Z.pow_add_r by lia.
    f_equal. f_equal. unfold k. lia. }
  pose proof (normal_mantissa mx Hdx) as Bx.
  assert (Hxk : 2 ^ k = 2 ^ (ex - ez) * 2 ^ (- ex))
    by (rewrite <- Z.pow_add_r by lia; f_equal; unfold k; lia).
  assert (Hxe : 0 < 2 ^ (ex - ez)) by (apply Z.pow_pos_nonneg; lia).
  assert (Hxn : 0 < 2 ^ (- ex)) by (apply Z.pow_pos_nonneg; lia).
  assert (Hfloor : Zpos b / 2 ^ k = Zpos mx / 2 ^ (- ex)).
  { rewrite Hb, Hxk. rewrite (Z.mul_comm (Zpos mx)).
    apply Z.div_mul_cancel_l; lia. }
  assert (Hsum : Zpos (a + b) / 2 ^ k = Zpos pt + Zpos mx / 2 ^ (- ex)).
  { rewrite Pos2Z.inj_add, Ha', Z.div_add_l by lia. rewrite Hfloor. reflexivity. }
  assert (Hbsmall : Zpos b < 2 ^ 31 * 2 ^ k).
  { rewrite Hb, Hxk.
    assert (Zpos mx < 2 ^ 31 * 2 ^ (- ex)).
    { change 9007199254740992 with (2 ^ 53) in Bx.
      assert (2 ^ 53 <= 2 ^ 31 * 2 ^ (- ex)).
      { rewrite <- Z.pow_add_r by lia. apply Z.pow_le_mono_r; lia. }
      lia. }
    nia. }
  assert (HMlo : 2 ^ k <= Zpos (a + b)) by (rewrite Pos2Z.inj_add, Ha'; nia).
  assert (HMhi : Zpos (a + b) < 2 ^ (33 + k)).
  { rewrite Pos2Z.inj_add, Ha', Z.pow_add_r by lia.
    change (2 ^ 33) with 8589934592. change (2 ^ 32) with 4294967296 in Ht.
    change (2 ^ 31) with 2147483648 in Hbsmall. nia. }
  assert (HM52 : 2 ^ 52 <= Zpos (a + b)).
  { rewrite Pos2Z.inj_add, Ha.
    pose proof (normal_mantissa ml Hdl) as Bl.
    assert (0 < 2 ^ (el - ez)) by (apply Z.pow_pos_nonneg; lia).
    change (2 ^ 52) with 4503599627370496. nia. }
  pose proof (digits2_pos_bounds (a + b)) as BD.
  set (D := Zpos (digits2_pos (a + b))) in *.
  assert (HD : 53 <= D /\ k + 1 <= D <= 33 + k).
  { assert (1 <= D) by (unfold D; lia).
    repeat split.
    - destruct (Z.lt_ge_cases D 53) as [Hc | Hc]; [| lia].
      assert (2 ^ D <= 2 ^ 52) by (apply Z.pow_le_mono_r; lia). lia.
    - destruct (Z.lt_ge_cases D (k + 1)) as [Hc | Hc]; [| lia].
      assert (2 ^ D <= 2 ^ k) by (apply Z.pow_le_mono_r; lia). lia.
    - destruct (Z.lt_ge_cases (33 + k) D) as [Hc | Hc]; [| lia].
      assert (2 ^ (33 + k) <= 2 ^ (D - 1)) by (apply Z.pow_le_mono_r; lia). lia. }
  assert (Hfexp : fexp prec emax (D + ez) = D + ez - 53)
    by (unfold fexp, SpecFloat.emin, prec, emax, k in *; lia).
  fold D. rewrite Hfexp.
  rewrite (shl_align_noop (a + b) ez (D + ez - 53)) by lia.
  assert (Hshape : exists n, D - 53 = n /\ 0 <= n) by (exists (D - 53); lia).
  destruct Hshape as (n & Hn & Hn0).
  destruct (binary_round_aux_carry false (a + b) ez n loc_Exact Hn0)
    as (m' & e' & Hr & Hd' & Hcase); try (unfold k in *; fold D; lia).
  rewrite Hr. unfold to_uint64, trunc. cbn [cond_Zopp].
  assert (Hnk : 0 <= n <= k - 20) by lia.
  assert (Hdiv : Zpos (a + b) / 2 ^ n / 2 ^ (k - n) = Zpos (a + b) / 2 ^ k)
    by (apply div_pow2_twice; lia).
  assert (Hq0 : 0 <= Zpos (a + b) / 2 ^ n)
    by (apply Z.div_pos; [lia | apply Z.pow_pos_nonneg; lia]).
  assert (Hkn : 0 < 2 ^ (k - n)) by (apply Z.pow_pos_nonneg; lia).
  pose proof (div_succ_bounds (Zpos (a + b) / 2 ^ n) (2 ^ (k - n)) Hq0 Hkn) as Hs.
  rewrite Hdiv, Hsum in Hs.
  assert (Hval : Zpos pt + Zpos mx / 2 ^ (- ex) <= Z.shiftl (Zpos m') e'
                 <= Zpos pt + Zpos mx / 2 ^ (- ex) + 1).
  { destruct Hcase as [[-> Hm'] | (-> & Hm' & Hc)].
    - rewrite Z.shiftl_div_pow2 by (unfold k in *; lia).
      replace (- (ez + n)) with (k - n) by (unfold k; lia).
      destruct Hm' as [-> | ->]; [rewrite Hdiv, Hsum; lia | lia].
    - rewrite Z.shiftl_div_pow2 by (unfold k in *; lia).
      replace (- (ez + n + 1)) with (k - n - 1) by (unfold k; lia).
      rewrite Hm'. rewrite Hc in Hs.
      assert (E : 2 ^ 53 / 2 ^ (k - n) = 2 ^ 52 / 2 ^ (k - n - 1)).
      { replace (2 ^ 53) with (2 * 2 ^ 52) by reflexivity.
        replace (2 ^ (k - n)) with (2 * 2 ^ (k - n - 1))
          by (rewrite <- Z.pow_succ_r by lia; f_equal; lia).
        apply Z.div_mul_cancel_l; [| lia].
        apply Z.pow_nonzero; lia. }
      rewrite <- E. exact Hs. }
  assert (Hfl : 0 <= Zpos mx / 2 ^ (- ex) < 2 ^ 31).
  { split; [apply Z.div_pos; lia |].
    apply Z.div_lt_upper_bound; [lia |].
    change 9007199254740992 with (2 ^ 53) in Bx.
    assert (2 ^ 53 <= 2 ^ (- ex) * 2 ^ 31).
    { rewrite <- Z.pow_add_r by lia. apply Z.pow_le_mono_r; lia. }
    lia. }
  exists (Z.shiftl (Zpos m') e').
  split; [| exact Hval].
  destruct (Z.leb_spec 0 (Z.shiftl (Zpos m') e'));
    destruct (Z.ltb_spec (Z.shiftl (Zpos m') e') (2 ^ 64)); simpl;
    try reflexivity; exfalso;
    change (2 ^ 64) with 18446744073709551616 in *;
    change (2 ^ 32) with 4294967296 in *;
    change (2 ^ 31) with 2147483648 in *; lia.
Qed.

(** ** More on running the functions *)

Lemma SpeedThrottle_throttled_run (h : Host) (w : World) :
  leb (of_Z 32) (g_fpsScale (globals w)) = false ->
  SpeedThrottle h w =
  if 50 <? remaining h w then (WAIT_PENDING, pending_world h w)
  else (WAIT_COMPLETE, completed_world h w).
Proof.
  intros Hslow.
  unfold SpeedThrottle, bind, load. rewrite Hslow.
  destruct w as [[last next frametime inframe scale maxspeed] reads tr].
  unfold pending_world, completed_world, remaining, cur_time, end_time,
         start_reads, deadline, window_start, cur_time_index,
         WAIT_COMPLETE, WAIT_PENDING.
  unfold bind, load, store, when, SDL_GetTicks, SDL_Delay,
         emit, assign_uint64, ret; simpl.
  destruct (last =? 0) eqn:Hlast; simpl;
    destruct (inframe =? 0) eqn:Hin; simpl;
    rewrite ?Hlast, ?Hin; simpl.
  all: split_ifs; rewrite ?Hin; simpl; rewrite <- ?app_assoc; simpl;
    try reflexivity; try lia.
Qed.

Lemma slept_app (a b : list event) : slept (a ++ b) = slept a + slept b.
Proof.
  induction a as [| e a IH]; simpl; [reflexivity |].
  destruct e; rewrite IH; lia.
Qed.

Lemma slept_start_reads (h : Host) (w : World) : slept (start_reads h w) = 0.
Proof. unfold start_reads. destruct (_ =? _); reflexivity. Qed.

Lemma call_n_S {A : Type} (n : nat) (m : M A) (h : Host) (w : World) :
  call_n (S n) m h w =
  (fst (m h w) :: fst (call_n n m h (snd (m h w))),
   snd (call_n n m h (snd (m h w)))).
Proof.
  simpl. unfold bind, ret. destruct (m h w) as [a w1]. simpl.
  destruct (call_n n m h w1) as [rest w2]. reflexivity.
Qed.

Lemma wrap_uint64_small (n : Z) : 0 <= n < 2 ^ 64 -> wrap_uint64 n = n.
Proof. intros H. unfold wrap_uint64. apply Z.mod_small. exact H. Qed.

Lemma remaining_nonneg (h : Host) (w : World) : 0 <= remaining h w.
Proof.
  unfold remaining. destruct (Z.leb_spec (deadline h w)
    (wrap_uint64 (ticks h (cur_time_index w)))); lia.
Qed.

(** What a pending call hands to the next one. *)
Lemma pending_world_next (h : Host) (w : World) :
  sleeps_honoured h w ->
  window_start h w <> 0 ->
  50 < remaining h w ->
  let w1 := pending_world h w in
  g_fpsScale (globals w1) = g_fpsScale (globals w) /\
  window_start h w1 = window_start h w /\
  deadline h w1 = deadline h w /\
  cur_time_index w1 = S (cur_time_index w) /\
  remaining h w1 <= remaining h w - 50.
Proof.
  intros Hsleep Hstart Hrem. simpl.
  assert (Hl : (window_start h w =? 0) = false) by (apply Z.eqb_neq; exact Hstart).
  assert (Hi : ((if InFrame (globals w) =? 0 then 1 else InFrame (globals w)) =? 0) = false).
  { destruct (Z.eqb_spec (InFrame (globals w)) 0); apply Z.eqb_neq; lia. }
  assert (Hidx : cur_time_index (pending_world h w) = S (cur_time_index w))
    by (unfold cur_time_index at 1; simpl; rewrite Hl; reflexivity).
  assert (Hdl : deadline h (pending_world h w) = deadline h w)
    by (unfold deadline at 1; simpl; rewrite Hi; reflexivity).
  split; [reflexivity |].
  split; [unfold window_start at 1; simpl; rewrite Hl; reflexivity |].
  split; [exact Hdl |].
  split; [exact Hidx |].
  pose proof (Hsleep O ltac:(simpl; lia)) as Hk.
  rewrite Nat.add_0_r in Hk. unfold seen in Hk.
  unfold remaining. rewrite Hdl, Hidx.
  unfold remaining in Hrem.
  destruct (Z.leb_spec (deadline h w) (wrap_uint64 (ticks h (cur_time_index w))));
    [lia |].
  specialize (Hk ltac:(lia)).
  destruct (Z.leb_spec (deadline h w)
              (wrap_uint64 (ticks h (S (cur_time_index w))))); lia.
Qed.

Lemma pending_world_sleeps (h : Host) (w : World) :
  sleeps_honoured h w ->
  window_start h w <> 0 ->
  50 < remaining h w ->
  sleeps_honoured h (pending_world h w).
Proof.
  intros Hsleep Hstart Hrem i Hi Hleft.
  destruct (pending_world_next h w Hsleep Hstart Hrem)
    as (_ & _ & Hdl & Hidx & Hless).
  rewrite Hidx. rewrite Hdl, Hidx in Hleft.
  pose proof (Hsleep (S i) ltac:(rewrite Nat2Z.inj_succ; lia)) as Hk.
  replace (cur_time_index w + S i)%nat with (S (cur_time_index w) + i)%nat in Hk by lia.
  exact (Hk Hleft).
Qed.

Lemma frame_wait_bounded (h : Host) (k : nat) :
  forall w,
    leb (of_Z 32) (g_fpsScale (globals w)) = false ->
    sleeps_honoured h w ->
    window_start h w <> 0 ->
    remaining h w <= 50 * (Z.of_nat k + 1) ->
    exists n evs,
      (n <= k)%nat /\
      50 * Z.of_nat n <= remaining h w /\
      fst (call_n (S n) SpeedThrottle h w) =
        repeat WAIT_PENDING n ++ [WAIT_COMPLETE] /\
      trace (snd (call_n (S n) SpeedThrottle h w)) = trace w ++ evs /\
      slept evs <= remaining h w /\
      InFrame (globals (snd (call_n (S n) SpeedThrottle h w))) = 0 /\
      Nexttime (globals (snd (call_n (S n) SpeedThrottle h w))) = deadline h w.
Proof.
  induction k as [| k IH]; intros w Hslow Hsleep Hstart Hrem.
  - exists O. eexists. rewrite call_n_S.
    rewrite (SpeedThrottle_throttled_run h w Hslow).
    destruct (Z.ltb_spec 50 (remaining h w)) as [Hlt | Hge]; [lia |].
    simpl. pose proof (remaining_nonneg h w).
    split; [lia |]. split; [lia |]. split; [reflexivity |].
    split; [reflexivity |].
    split; [| split; reflexivity].
    rewrite slept_app, slept_start_reads. simpl.
    destruct (Z.ltb_spec 0 (remaining h w)); simpl; lia.
  - destruct (Z.ltb_spec 50 (remaining h w)) as [Hlt | Hge].
    + destruct (pending_world_next h w Hsleep Hstart Hlt)
        as (Hg & Hws & Hdl & Hidx & Hless).
      destruct (IH (pending_world h w)) as (n & evs & Hn & Hb & Hres & Htr & Hsl & Hin & Hnx).
      * rewrite Hg. exact Hslow.
      * apply pending_world_sleeps; assumption.
      * rewrite Hws. exact Hstart.
      * lia.
      * exists (S n). eexists.
        rewrite (call_n_S (S n)).
        rewrite (SpeedThrottle_throttled_run h w Hslow).
        destruct (Z.ltb_spec 50 (remaining h w)) as [_ | Hc]; [| lia].
        cbn [fst snd].
        split; [lia |]. split; [lia |].
        split; [rewrite Hres; reflexivity |].
        split; [rewrite Htr; simpl trace; rewrite <- app_assoc; reflexivity |].
        split; [| split; [exact Hin | rewrite Hnx; exact Hdl]].
        rewrite !slept_app, slept_start_reads. cbn [slept]. lia.
    + exists O. eexists. rewrite call_n_S.
      rewrite (SpeedThrottle_throttled_run h w Hslow).
      destruct (Z.ltb_spec 50 (remaining h w)) as [Hlt | _]; [lia |].
      simpl. pose proof (remaining_nonneg h w).
      split; [lia |]. split; [lia |]. split; [reflexivity |].
      split; [reflexivity |].
      split; [| split; reflexivity].
      rewrite slept_app, slept_start_reads. simpl.
      destruct (Z.ltb_spec 0 (remaining h w)); simpl; lia.
Qed.

Lemma announced_check_small :
  forallb announced_check (seq 1 (Z.to_nat 8191)) = true.
Proof. vm_compute. reflexivity. Qed.

Lemma announced_close (p : Z) :
  1 <= p < 2 ^ 31 ->
  close_to (1 # 2 ^ 42) (announced p) (expected_percent p) = true.
Proof.
  intros Hp. destruct (Z.lt_ge_cases p 8192) as [Hs | Hl].
  - pose proof announced_check_small as H.
    rewrite forallb_forall in H.
    specialize (H (Z.to_nat p)).
    assert (Hin : In (Z.to_nat p) (seq 1 (Z.to_nat 8191))) by (apply in_seq; lia).
    specialize (H Hin). unfold announced_check in H.
    rewrite Z2Nat.id in H by lia. exact H.
  - unfold announced. rewrite percent_scale_large by lia.
    unfold expected_percent.
    destruct (Z.eqb_spec p 1); [lia |].
    destruct (Z.leb_spec p 3200); [lia |].
    vm_compute. reflexivity.
Qed.

(** ** The budget, the speed table and the frame wait *)

(** The budget of a rate between 2^lo and 2^hi at a scale in range is a
    positive normal number, with an exponent the bounds of the rate give. *)
Lemma frame_budget_exponent (fps : Z) (scale : double) (lo hi : Z) :
  0 <= lo -> hi <= 31 ->
  2 ^ lo <= fps < 2 ^ hi ->
  in_range scale ->
  exists m e,
    frame_budget fps scale = S754_finite false m e /\
    Zpos (digits2_pos m) = 53 /\
    -37 - hi <= e <= -20 - lo.
Proof.
  intros Hlo Hhi Hfps Hscale.
  destruct (digits2_pos_int fps lo hi Hlo Hfps) as (q & -> & Hq).
  destruct (of_Z_normal q ltac:(lia)) as (m1 & e1 & H1 & Hd1 & He1).
  destruct (in_range_parts scale Hscale) as (ms & es & -> & Hds & Hes & _).
  unfold frame_budget. rewrite H1.
  change (of_Z 16777216) with (S754_finite false 4503599627370496 (-28)).
  change (of_Z 1) with (S754_finite false 4503599627370496 (-52)).
  destruct (div_normal m1 4503599627370496 e1 (-28) Hd1 eq_refl)
    as (m2 & e2 & H2 & Hd2 & He2 & _); try lia.
  rewrite H2.
  destruct (mul_normal m2 ms e2 es Hd2 Hds)
    as (m3 & e3 & H3 & Hd3 & He3); try lia.
  rewrite H3.
  destruct (div_normal 4503599627370496 m3 (-52) e3 eq_refl Hd3)
    as (m4 & e4 & H4 & Hd4 & He4 & _); try lia.
  exists m4, e4. split; [exact H4 |]. split; [exact Hd4 | lia].
Qed.

(** The budget in milliseconds, for a rate of at least 1 Hz. *)
Lemma frame_budget_ms (fps : Z) (scale : double) :
  2 ^ 24 <= fps < 2 ^ 31 ->
  in_range scale ->
  exists m e,
    mul (frame_budget fps scale) (of_Z 1000) = S754_finite false m e /\
    Zpos (digits2_pos m) = 53 /\
    -59 <= e <= -33.
Proof.
  intros Hfps Hscale.
  destruct (frame_budget_exponent fps scale 24 31 ltac:(lia) ltac:(lia) Hfps Hscale)
    as (m & e & Hb & Hd & He).
  rewrite Hb.
  change (of_Z 1000) with (S754_finite false 8796093022208000 (-43)).
  destruct (mul_normal m 8796093022208000 e (-43) Hd eq_refl)
    as (m' & e' & Hr & Hd' & He'); try lia.
  exists m', e'. split; [exact Hr |]. split; [exact Hd' | lia].
Qed.

(** X1: with a positive native rate and a scale within
    [[Slowest, Fastest]], [RefreshThrottleFPS] leaves a budget that is a
    well-formed double, above zero and below 2^33 seconds. *)
Theorem RefreshThrottleFPS_positive_budget (h : Host) (w : World) :
  1 <= desired_fps h < 2 ^ 31 ->
  in_range (g_fpsScale (globals w)) ->
  let budget := desired_frametime (globals (snd (RefreshThrottleFPS h w))) in
  is_double budget /\
  ltb (of_Z 0) budget = true /\
  ltb budget (of_Z (2 ^ 33)) = true.
Proof.
  intros Hfps Hscale. rewrite RefreshThrottleFPS_run.
  unfold refreshed. cbn [snd globals desired_frametime].
  assert (Hfps' : 2 ^ 0 <= desired_fps h < 2 ^ 31)
    by (change (2 ^ 0) with 1; exact Hfps).
  destruct (frame_budget_exponent (desired_fps h) (g_fpsScale (globals w)) 0 31
              (Z.le_refl 0) (Z.le_refl 31) Hfps' Hscale)
    as (m & e & Hb & Hd & He).
  rewrite Hb. split; [apply is_double_normal; [exact Hd | lia] |].
  split; [reflexivity |].
  change (of_Z (2 ^ 33)) with (S754_finite false 4503599627370496 (-19)).
  apply ltb_pos_finite. lia.
Qed.

Lemma RefreshThrottleFPS_positive_budget_at_start :
  1 <= desired_fps host_ntsc < 2 ^ 31 /\
  in_range (g_fpsScale (globals world_start)) /\
  ltb (of_Z 0)
      (desired_frametime (globals (snd (RefreshThrottleFPS host_ntsc world_start))))
    = true.
Proof.
  split; [simpl; lia |]. split; [repeat split |].
  apply (RefreshThrottleFPS_positive_budget host_ntsc world_start
           ltac:(simpl; lia) (conj eq_refl (conj eq_refl eq_refl))).
Defined.

Lemma refreshed_fresh (h : Host) (w : World) :
  fresh_budget h (globals (refreshed h w)).
Proof. repeat split. Qed.

Lemma preset_switch_known (a b c d e cmd : Z) (h : Host) (w : World) :
  In cmd (presets a b c d e) ->
  fst (preset_switch a b c d e cmd h w) = true.
Proof.
  unfold presets. simpl In. intros Hin. unfold preset_switch, bind, store, ret.
  destruct (Z.eqb_spec cmd a); [reflexivity |].
  destruct (Z.eqb_spec cmd b);
    [destruct (DecreaseEmulationSpeed h w); reflexivity |].
  destruct (Z.eqb_spec cmd c); [reflexivity |].
  destruct (Z.eqb_spec cmd d);
    [destruct (IncreaseEmulationSpeed h w); reflexivity |].
  destruct (Z.eqb_spec cmd e); [reflexivity |].
  exfalso. intuition congruence.
Qed.

(** X2: every adjuster that goes through leaves the budget of the scale
    it has just set and no frame wait in progress: [desired_frametime] is
    [1.0 / ((fps / 16777216.0) * g_fpsScale)] for the new [g_fpsScale],
    and [Lasttime], [Nexttime] and [InFrame] are zero. *)
Theorem adjusters_leave_fresh_budget (h : Host) (w : World) :
  fresh_budget h (globals (snd (IncreaseEmulationSpeed h w))) /\
  fresh_budget h (globals (snd (DecreaseEmulationSpeed h w))) /\
  (forall p, 1 <= p ->
     fresh_budget h (globals (snd (CustomEmulationSpeed p h w)))) /\
  (forall a b c d e cmd,
     In cmd (presets a b c d e) ->
     fresh_budget h
       (globals (snd (FCEUD_SetEmulationSpeed a b c d e cmd h w)))).
Proof.
  split; [rewrite IncreaseEmulationSpeed_run; apply refreshed_fresh |].
  split; [rewrite DecreaseEmulationSpeed_run; apply refreshed_fresh |].
  split.
  - intros p Hp. rewrite CustomEmulationSpeed_run by exact Hp.
    apply refreshed_fresh.
  - intros a b c d e cmd Hin.
    unfold FCEUD_SetEmulationSpeed, bind, store.
    pose proof (preset_switch_known a b c d e cmd h
                  (mkWorld (with_MaxSpeed false (globals w))
                           (clock_reads w) (trace w)) Hin) as Hk.
    destruct (preset_switch a b c d e cmd h _) as [broke w1].
    simpl in Hk. subst broke.
    rewrite RefreshThrottleFPS_run. unfold load, FCEU_DispMessage, emit.
    apply refreshed_fresh.
Qed.

Lemma adjusters_leave_fresh_budget_at_start :
  1 <= 150 /\
  fresh_budget host_ntsc
    (globals (snd (CustomEmulationSpeed 150 host_ntsc world_start))).
Proof.
  split; [lia |].
  destruct (adjusters_leave_fresh_budget host_ntsc world_start)
    as (_ & _ & Hcustom & _).
  apply Hcustom. lia.
Defined.

(** X3: [MaxSpeed] is written by [FCEUD_SetEmulationSpeed] alone:
    [RefreshThrottleFPS], [IncreaseEmulationSpeed],
    [DecreaseEmulationSpeed] and [CustomEmulationSpeed] leave it as it is.
    So one step down from [Fastest] runs throttled with [MaxSpeed] still
    as the preset left it. *)
Theorem MaxSpeed_kept_by_steps (h : Host) (w : World) :
  MaxSpeed (globals (snd (RefreshThrottleFPS h w))) = MaxSpeed (globals w) /\
  MaxSpeed (globals (snd (IncreaseEmulationSpeed h w))) = MaxSpeed (globals w) /\
  MaxSpeed (globals (snd (DecreaseEmulationSpeed h w))) = MaxSpeed (globals w) /\
  (forall p,
     MaxSpeed (globals (snd (CustomEmulationSpeed p h w))) = MaxSpeed (globals w)) /\
  (g_fpsScale (globals w) = Fastest ->
     leb (of_Z 32) (scale_after DecreaseEmulationSpeed h w) = false).
Proof.
  split; [rewrite RefreshThrottleFPS_run; reflexivity |].
  split; [rewrite IncreaseEmulationSpeed_run; reflexivity |].
  split; [rewrite DecreaseEmulationSpeed_run; reflexivity |].
  split.
  - intros p. destruct (Z.lt_ge_cases p 1) as [Hlt | Hge].
    + rewrite CustomEmulationSpeed_reject by exact Hlt. reflexivity.
    + rewrite CustomEmulationSpeed_run by exact Hge. reflexivity.
  - intros Hg. rewrite scale_after_Decrease, Hg. vm_compute. reflexivity.
Qed.

Lemma MaxSpeed_kept_by_steps_at_fastest :
  g_fpsScale (globals world_fastest) = Fastest /\
  MaxSpeed (globals (snd (DecreaseEmulationSpeed host_ntsc world_fastest))) = true /\
  leb (of_Z 32) (scale_after DecreaseEmulationSpeed host_ntsc world_fastest) = false.
Proof.
  split; [reflexivity |].
  destruct (MaxSpeed_kept_by_steps host_ntsc world_fastest)
    as (_ & _ & Hkept & _ & Hslow).
  split; [rewrite Hkept; reflexivity | apply Hslow; reflexivity].
Defined.


(** X5: the speed table tops out.  From any scale within
    [[Slowest, Fastest]], 34 calls of [IncreaseEmulationSpeed] or more end
    at exactly [Fastest], after which [SpeedThrottle] returns at once; 33
    calls from [Slowest] do not get there. *)
Theorem IncreaseEmulationSpeed_saturates (h : Host) (w : World) (n : nat) :
  in_range (g_fpsScale (globals w)) ->
  (34 <= n)%nat ->
  let w' := snd (call_n n IncreaseEmulationSpeed h w) in
  g_fpsScale (globals w') = Fastest /\
  SpeedThrottle h w' = (WAIT_COMPLETE, w') /\
  (g_fpsScale (globals w) = Slowest ->
     scale_after (call_n 33 IncreaseEmulationSpeed) h w <> Fastest).
Proof.
  intros Hg Hn w'.
  assert (Hs : g_fpsScale (globals w') = Fastest).
  { unfold w'. change (scale_after (call_n n IncreaseEmulationSpeed) h w = Fastest).
    rewrite (scale_after_call_n _ step_faster h (scale_after_Increase h)).
    apply steps_up_reach_Fastest; assumption. }
  split; [exact Hs |].
  split; [apply SpeedThrottle_fast_path; rewrite Hs; reflexivity |].
  intros Hslow.
  rewrite (scale_after_call_n _ step_faster h (scale_after_Increase h)), Hslow.
  apply steps_33_not_enough.
Qed.

Lemma IncreaseEmulationSpeed_saturates_at_start :
  in_range (g_fpsScale (globals world_start)) /\
  (34 <= 40)%nat /\
  g_fpsScale (globals (snd (call_n 40 IncreaseEmulationSpeed host_ntsc world_start)))
    = Fastest.
Proof.
  split; [repeat split |]. split; [lia |].
  apply (proj1 (IncreaseEmulationSpeed_saturates host_ntsc world_start 40
                  (conj eq_refl (conj eq_refl eq_refl)) ltac:(lia))).
Defined.

(** X6: the speed table bottoms out.  From any scale within
    [[Slowest, Fastest]], 34 calls of [DecreaseEmulationSpeed] or more end
    at exactly [Slowest]; 33 calls from [Fastest] do not get there. *)
Theorem DecreaseEmulationSpeed_saturates (h : Host) (w : World) (n : nat) :
  in_range (g_fpsScale (globals w)) ->
  (34 <= n)%nat ->
  scale_after (call_n n DecreaseEmulationSpeed) h w = Slowest /\
  (g_fpsScale (globals w) = Fastest ->
     scale_after (call_n 33 DecreaseEmulationSpeed) h w <> Slowest).
Proof.
  intros Hg Hn.
  rewrite !(scale_after_call_n _ step_slower h (scale_after_Decrease h)).
  split; [apply steps_down_reach_Slowest; assumption |].
  intros Hfast. rewrite Hfast. apply steps_33_not_enough.
Qed.

Lemma DecreaseEmulationSpeed_saturates_at_start :
  in_range (g_fpsScale (globals world_start)) /\
  (34 <= 34)%nat /\
  scale_after (call_n 34 DecreaseEmulationSpeed) host_ntsc world_start = Slowest.
Proof.
  split; [repeat split |]. split; [lia |].
  apply (proj1 (DecreaseEmulationSpeed_saturates host_ntsc world_start 34
                  (conj eq_refl (conj eq_refl eq_refl)) ltac:(lia))).
Defined.

(** X7: a step is never lost to rounding.  Within [[Slowest, Fastest]],
    [IncreaseEmulationSpeed] leaves a scale strictly above the one it
    found unless that was [Fastest], which it keeps; and
    [DecreaseEmulationSpeed] leaves a scale strictly below unless that was
    [Slowest], which it keeps. *)
Theorem steps_are_strict (h : Host) (w : World) :
  in_range (g_fpsScale (globals w)) ->
  let g := g_fpsScale (globals w) in
  (g <> Fastest -> ltb g (scale_after IncreaseEmulationSpeed h w) = true) /\
  (g = Fastest -> scale_after IncreaseEmulationSpeed h w = Fastest) /\
  (g <> Slowest -> ltb (scale_after DecreaseEmulationSpeed h w) g = true) /\
  (g = Slowest -> scale_after DecreaseEmulationSpeed h w = Slowest).
Proof.
  intros Hg g. rewrite scale_after_Increase, scale_after_Decrease. fold g.
  split; [| split; [| split]].
  - intros Hne. destruct (step_faster_raises g Hg) as [H | H]; [contradiction | exact H].
  - intros ->. apply step_faster_Fastest.
  - intros Hne. destruct (step_slower_lowers g Hg) as [H | H]; [contradiction | exact H].
  - intros ->. apply step_slower_Slowest.
Qed.

Lemma steps_are_strict_at_start :
  in_range (g_fpsScale (globals world_start)) /\
  g_fpsScale (globals world_start) <> Fastest /\
  ltb (g_fpsScale (globals world_start))
      (scale_after IncreaseEmulationSpeed host_ntsc world_start) = true.
Proof.
  split; [repeat split |].
  assert (Hne : g_fpsScale (globals world_start) <> Fastest) by discriminate.
  split; [exact Hne |].
  apply (proj1 (steps_are_strict host_ntsc world_start
                  (conj eq_refl (conj eq_refl eq_refl)))).
  exact Hne.
Defined.

(** X8: a frame wait ends, and does not oversleep.  In a throttled state
    whose window start is not zero, with a clock on which every
    [SDL_Delay (50)] of the wait lasts at least its 50 ms (nothing is
    asked of the last, shorter sleep), some number [n] of calls of
    [SpeedThrottle] return [WAIT_PENDING] and the next one returns
    [WAIT_COMPLETE]; [50 * n] is at most the time that was left at the
    first call, and so is the total handed to [SDL_Delay]; the deadline
    has not moved and [InFrame] is cleared. *)
Theorem frame_wait_completes (h : Host) (w : World) :
  leb (of_Z 32) (g_fpsScale (globals w)) = false ->
  sleeps_honoured h w ->
  window_start h w <> 0 ->
  exists n evs,
    50 * Z.of_nat n <= remaining h w /\
    fst (call_n (S n) SpeedThrottle h w) =
      repeat WAIT_PENDING n ++ [WAIT_COMPLETE] /\
    trace (snd (call_n (S n) SpeedThrottle h w)) = trace w ++ evs /\
    slept evs <= remaining h w /\
    InFrame (globals (snd (call_n (S n) SpeedThrottle h w))) = 0 /\
    Nexttime (globals (snd (call_n (S n) SpeedThrottle h w))) = deadline h w.
Proof.
  intros Hslow Hsleep Hstart.
  pose proof (remaining_nonneg h w) as Hrem.
  destruct (frame_wait_bounded h (Z.to_nat (remaining h w / 50)) w
              Hslow Hsleep Hstart)
    as (n & evs & _ & Hb & Hres & Htr & Hsl & Hin & Hnx).
  { rewrite Z2Nat.id by (apply Z.div_pos; lia).
    pose proof (Z.mul_succ_div_gt (remaining h w) 50 ltac:(lia)). lia. }
  exists n, evs. repeat split; assumption.
Qed.

Lemma frame_wait_completes_at_slowest :
  leb (of_Z 32) (g_fpsScale (globals world_slowest)) = false /\
  sleeps_honoured host_exact world_slowest /\
  window_start host_exact world_slowest <> 0 /\
  remaining host_exact world_slowest = 1064 /\
  exists n evs,
    50 * Z.of_nat n <= remaining host_exact world_slowest /\
    fst (call_n (S n) SpeedThrottle host_exact world_slowest) =
      repeat WAIT_PENDING n ++ [WAIT_COMPLETE] /\
    trace (snd (call_n (S n) SpeedThrottle host_exact world_slowest)) =
      trace world_slowest ++ evs /\
    slept evs <= remaining host_exact world_slowest /\
    InFrame (globals (snd (call_n (S n) SpeedThrottle host_exact world_slowest))) = 0 /\
    Nexttime (globals (snd (call_n (S n) SpeedThrottle host_exact world_slowest))) =
      deadline host_exact world_slowest.
Proof.
  split; [reflexivity |].
  assert (Hrem : remaining host_exact world_slowest = 1064)
    by (vm_compute; reflexivity).
  assert (Hsleep : sleeps_honoured host_exact world_slowest).
  { intros i Hi _. rewrite Hrem in Hi.
    change (cur_time_index world_slowest) with 1%nat.
    unfold seen, host_exact, ticks.
    rewrite !wrap_uint64_small by lia. lia. }
  assert (Hstart : window_start host_exact world_slowest <> 0)
    by (vm_compute; discriminate).
  split; [exact Hsleep |]. split; [exact Hstart |]. split; [exact Hrem |].
  exact (frame_wait_completes host_exact world_slowest eq_refl Hsleep Hstart).
Defined.

Lemma close_to_spec (tol : Q) (x : double) (q : Q) :
  close_to tol x q = true ->
  exists v, value x = Some v /\ (q - tol <= v <= q + tol)%Q.
Proof.
  unfold close_to. destruct (value x) as [v |]; [| discriminate].
  intros H. apply andb_true_iff in H. destruct H as [H1 H2].
  apply Qle_bool_iff in H1. apply Qle_bool_iff in H2.
  exists v. split; [reflexivity | split; assumption].
Qed.

(** X9: what the user is told after [CustomEmulationSpeed].  A call with
    a percentage of at least 1 asks the core for its rate once and then
    displays one message, whose number is within 2^-42 of the percentage
    asked for from 2 to 3200, of 1.5625 for 1, and of 3200 above. *)
Theorem CustomEmulationSpeed_announces (h : Host) (w : World) (p : Z) :
  1 <= p < 2 ^ 31 ->
  exists arg v,
    trace (snd (CustomEmulationSpeed p h w)) =
      trace w ++ [FCEUI_GetDesiredFPS_call (desired_fps h);
                  FCEU_DispMessage_call speed_message 0 arg] /\
    value arg = Some v /\
    (expected_percent p - (1 # 2 ^ 42) <= v <= expected_percent p + (1 # 2 ^ 42))%Q.
Proof.
  intros Hp. rewrite CustomEmulationSpeed_run by lia.
  destruct (close_to_spec _ _ _ (announced_close p Hp)) as (v & Hv & Hb).
  exists (announced p), v.
  split; [| split; [exact Hv | exact Hb]].
  unfold refreshed. simpl. rewrite <- app_assoc. reflexivity.
Qed.

Lemma CustomEmulationSpeed_announces_at_7 :
  1 <= 7 < 2 ^ 31 /\
  exists arg v,
    trace (snd (CustomEmulationSpeed 7 host_ntsc world_start)) =
      trace world_start ++ [FCEUI_GetDesiredFPS_call (desired_fps host_ntsc);
                            FCEU_DispMessage_call speed_message 0 arg] /\
    value arg = Some v /\
    (expected_percent 7 - (1 # 2 ^ 42) <= v <= expected_percent 7 + (1 # 2 ^ 42))%Q.
Proof.
  split; [lia |].
  apply (CustomEmulationSpeed_announces host_ntsc world_start 7). lia.
Defined.

Section PresetSteps.

Variables EMUSPEED_SLOWEST EMUSPEED_SLOWER EMUSPEED_NORMAL
          EMUSPEED_FASTER EMUSPEED_FASTEST : Z.

Hypothesis labels_distinct :
  NoDup (presets EMUSPEED_SLOWEST EMUSPEED_SLOWER EMUSPEED_NORMAL
                 EMUSPEED_FASTER EMUSPEED_FASTEST).

(** X10: the second recalculation of the stepping presets changes
    nothing.  [FCEUD_SetEmulationSpeed] with [EMUSPEED_SLOWER] leaves the
    variables [DecreaseEmulationSpeed] leaves, with [MaxSpeed] cleared,
    and with [EMUSPEED_FASTER] those [IncreaseEmulationSpeed] leaves, with
    [MaxSpeed] cleared; the clock is not read. *)
Theorem stepping_presets_as_steps (h : Host) (w : World) :
  let preset cmd :=
    snd (FCEUD_SetEmulationSpeed
           EMUSPEED_SLOWEST EMUSPEED_SLOWER EMUSPEED_NORMAL
           EMUSPEED_FASTER EMUSPEED_FASTEST cmd h w) in
  globals (preset EMUSPEED_SLOWER) =
    with_MaxSpeed false (globals (snd (DecreaseEmulationSpeed h w))) /\
  globals (preset EMUSPEED_FASTER) =
    with_MaxSpeed false (globals (snd (IncreaseEmulationSpeed h w))) /\
  clock_reads (preset EMUSPEED_SLOWER) = clock_reads w /\
  clock_reads (preset EMUSPEED_FASTER) = clock_reads w.
Proof.
  pose proof (labels_pairwise _ _ _ _ _ labels_distinct) as Hd.
  cbv zeta. run_preset.
  destruct (Z.eqb_spec EMUSPEED_SLOWER EMUSPEED_SLOWEST);
    [exfalso; clear labels_distinct; intuition congruence |].
  destruct (Z.eqb_spec EMUSPEED_FASTER EMUSPEED_SLOWEST);
    [exfalso; clear labels_distinct; intuition congruence |].
  destruct (Z.eqb_spec EMUSPEED_FASTER EMUSPEED_SLOWER);
    [exfalso; clear labels_distinct; intuition congruence |].
  destruct (Z.eqb_spec EMUSPEED_FASTER EMUSPEED_NORMAL);
    [exfalso; clear labels_distinct; intuition congruence |].
  rewrite !Z.eqb_refl.
  rewrite !DecreaseEmulationSpeed_run, !IncreaseEmulationSpeed_run.
  repeat split.
Qed.

End PresetSteps.

Lemma stepping_presets_as_steps_at_start :
  NoDup (presets 0 1 2 3 4) /\
  globals (snd (FCEUD_SetEmulationSpeed 0 1 2 3 4 1 host_ntsc world_fastest)) =
    with_MaxSpeed false
      (globals (snd (DecreaseEmulationSpeed host_ntsc world_fastest))).
Proof.
  split; [exact presets_0_to_4_distinct |].
  apply (proj1 (stepping_presets_as_steps 0 1 2 3 4 presets_0_to_4_distinct
                  host_ntsc world_fastest)).
Defined.

Lemma SpeedThrottle_Nexttime (h : Host) (w : World) :
  leb (of_Z 32) (g_fpsScale (globals w)) = false ->
  Nexttime (globals (snd (SpeedThrottle h w))) = deadline h w.
Proof.
  intros Hslow. rewrite (SpeedThrottle_throttled_run h w Hslow).
  destruct (50 <? remaining h w); reflexivity.
Qed.

(** X11: where the deadline of a new frame falls.  With a native rate of
    at least 1 Hz, a scale within [[Slowest, Fastest]] below [Fastest],
    the budget of that scale, no frame in progress and a window start
    between 1 and 2^32, a call of [SpeedThrottle] sets [Nexttime] to the
    window start plus the whole milliseconds of the budget, or one more;
    the conversion to [uint64] is in range, and the budget is below 2^20
    ms. *)
Theorem SpeedThrottle_deadline (h : Host) (w : World) :
  leb (of_Z 32) (g_fpsScale (globals w)) = false ->
  2 ^ 24 <= desired_fps h < 2 ^ 31 ->
  in_range (g_fpsScale (globals w)) ->
  desired_frametime (globals w) =
    frame_budget (desired_fps h) (g_fpsScale (globals w)) ->
  InFrame (globals w) = 0 ->
  1 <= window_start h w < 2 ^ 32 ->
  let budget_ms := mul (desired_frametime (globals w)) (of_Z 1000) in
  let next := Nexttime (globals (snd (SpeedThrottle h w))) in
  exists ms,
    trunc budget_ms = Some ms /\
    0 <= ms < 2 ^ 20 /\
    window_start h w + ms <= next <= window_start h w + ms + 1 /\
    to_uint64 (add (of_Z (window_start h w)) budget_ms) = Some next.
Proof.
  intros Hslow Hfps Hscale Hbudget Hin Hstart. cbv zeta.
  rewrite (SpeedThrottle_Nexttime h w Hslow).
  destruct (frame_budget_ms (desired_fps h) (g_fpsScale (globals w)) Hfps Hscale)
    as (mx & ex & Hms & Hdx & Hex).
  rewrite Hbudget, Hms.
  destruct (add_time_budget (window_start h w) mx ex Hstart Hdx ltac:(lia))
    as (n & Hconv & Hn).
  assert (Hdl : deadline h w = n).
  { unfold deadline, uint64_of_double. rewrite Hin. simpl.
    rewrite Hbudget, Hms, Hconv. reflexivity. }
  rewrite Hdl.
  exists (Zpos mx / 2 ^ (- ex)).
  split; [unfold trunc; cbn [cond_Zopp]; rewrite Z.shiftl_div_pow2 by lia; reflexivity |].
  split; [| split; [exact Hn | exact Hconv]].
  pose proof (normal_mantissa mx Hdx) as B.
  assert (Hp : 0 < 2 ^ (- ex)) by (apply Z.pow_pos_nonneg; lia).
  split; [apply Z.div_pos; lia |].
  apply Z.div_lt_upper_bound; [exact Hp |].
  assert (2 ^ 53 <= 2 ^ (- ex) * 2 ^ 20).
  { rewrite <- Z.pow_add_r by lia. apply Z.pow_le_mono_r; lia. }
  change (2 ^ 53) with 9007199254740992 in *. lia.
Qed.

Lemma SpeedThrottle_deadline_at_slowest :
  leb (of_Z 32) (g_fpsScale (globals world_slowest)) = false /\
  2 ^ 24 <= desired_fps host_steady < 2 ^ 31 /\
  in_range (g_fpsScale (globals world_slowest)) /\
  1 <= window_start host_steady world_slowest < 2 ^ 32 /\
  exists ms,
    trunc (mul (desired_frametime (globals world_slowest)) (of_Z 1000)) = Some ms /\
    0 <= ms < 2 ^ 20 /\
    window_start host_steady world_slowest + ms
      <= Nexttime (globals (snd (SpeedThrottle host_steady world_slowest)))
      <= window_start host_steady world_slowest + ms + 1 /\
    to_uint64 (add (of_Z (window_start host_steady world_slowest))
                   (mul (desired_frametime (globals world_slowest)) (of_Z 1000))) =
      Some (Nexttime (globals (snd (SpeedThrottle host_steady world_slowest)))).
Proof.
  split; [reflexivity |].
  assert (Hfps : 2 ^ 24 <= desired_fps host_steady < 2 ^ 31) by (simpl; lia).
  split; [exact Hfps |].
  split; [repeat split |].
  assert (Hstart : 1 <= window_start host_steady world_slowest < 2 ^ 32)
    by (vm_compute; split; [discriminate | reflexivity]).
  split; [exact Hstart |].
  apply (SpeedThrottle_deadline host_steady world_slowest eq_refl Hfps
           (conj eq_refl (conj eq_refl eq_refl)) eq_refl eq_refl Hstart).
Defined.

(** X12: zero stands for "no window".  In a throttled state with
    [Lasttime] zero, when the clock reads 0 and the call returns
    [WAIT_PENDING], [Lasttime] is still zero afterwards: the next call
    takes its clock reading as the window start, while the deadline stays
    the one computed from 0. *)
Theorem zero_reading_is_no_window (h : Host) (w : World) :
  leb (of_Z 32) (g_fpsScale (globals w)) = false ->
  Lasttime (globals w) = 0 ->
  seen h (clock_reads w) = 0 ->
  50 < remaining h w ->
  let w' := snd (SpeedThrottle h w) in
  fst (SpeedThrottle h w) = WAIT_PENDING /\
  Lasttime (globals w') = 0 /\
  window_start h w' = seen h (clock_reads w') /\
  deadline h w' = deadline h w.
Proof.
  intros Hslow Hlast Hzero Hrem. cbv zeta.
  rewrite (SpeedThrottle_throttled_run h w Hslow).
  destruct (Z.ltb_spec 50 (remaining h w)) as [_ | Hc]; [| lia].
  cbn [fst snd].
  assert (Hws : window_start h w = 0)
    by (unfold window_start; rewrite Hlast; exact Hzero).
  assert (Hi : ((if InFrame (globals w) =? 0 then 1 else InFrame (globals w)) =? 0) = false).
  { destruct (Z.eqb_spec (InFrame (globals w)) 0); apply Z.eqb_neq; lia. }
  split; [reflexivity |].
  split; [exact Hws |].
  split.
  - unfold window_start at 1. simpl. rewrite Hws. reflexivity.
  - unfold deadline at 1. simpl. rewrite Hi. reflexivity.
Qed.

Lemma zero_reading_is_no_window_at_slowest :
  leb (of_Z 32) (g_fpsScale (globals world_slowest)) = false /\
  Lasttime (globals world_slowest) = 0 /\
  seen host_zero (clock_reads world_slowest) = 0 /\
  50 < remaining host_zero world_slowest /\
  Lasttime (globals (snd (SpeedThrottle host_zero world_slowest))) = 0.
Proof.
  split; [reflexivity |]. split; [reflexivity |]. split; [reflexivity |].
  assert (Hrem : 50 < remaining host_zero world_slowest)
    by (vm_compute; reflexivity).
  split; [exact Hrem |].
  destruct (zero_reading_is_no_window host_zero world_slowest
              eq_refl eq_refl eq_refl Hrem) as (_ & Hlast & _).
  exact Hlast.
Defined.

(** ** Steps as ratios *)

(** One multiplication by [LOGMUL] is exact to one unit in the last
    place of the product. *)
Lemma mul_LOGMUL_near (m : positive) (e : Z) :
  Zpos (digits2_pos m) = 53 ->
  -58 <= e <= -47 ->
  exists m' e',
    mul (S754_finite false m e) LOGMUL = S754_finite false m' e' /\
    Zpos (digits2_pos m') = 53 /\
    e <= e' <= e + 2 /\
    Z.abs (Zpos m' * 2 ^ (e' - e) * 2 ^ 52 - Zpos m * 5674179970822794)
      <= 2 ^ (e' - e) * 2 ^ 52.
Proof.
  intros Hd He. pose proof (normal_mantissa m Hd) as B.
  unfold mul, SFmul, LOGMUL. simpl xorb.
  set (M := Zpos (m * 5674179970822794)).
  assert (HM : M = Zpos m * 5674179970822794) by (unfold M; apply Pos2Z.inj_mul).
  destruct (Z.lt_ge_cases M (2 ^ 105)) as [Hs | Hs].
  - assert (Hdm : Zpos (digits2_pos (m * 5674179970822794)) = 53 + 52).
    { apply digits2_pos_unique. fold M. simpl Z.sub. simpl Z.add. lia. }
    destruct (binary_round_aux_carry false (m * 5674179970822794) (e + -52) 52
                loc_Exact ltac:(lia) Hdm)
      as (m' & e' & Hr & Hd' & Hcase); try lia.
    exists m', e'. split; [exact Hr |]. split; [exact Hd' |].
    fold M in Hcase.
    pose proof (Z.mul_succ_div_gt M (2 ^ 52) ltac:(lia)) as Hq.
    pose proof (Z.mul_div_le M (2 ^ 52) ltac:(lia)) as Hq'.
    change (2 ^ 52) with 4503599627370496 in *.
    change (2 ^ 53) with 9007199254740992 in *.
    destruct Hcase as [[-> Hm'] | (-> & Hm' & Hc)].
    + replace (e + -52 + 52 - e) with 0 by lia. change (2 ^ 0) with 1.
      split; lia.
    + replace (e + -52 + 52 + 1 - e) with 1 by lia. change (2 ^ 1) with 2.
      split; lia.
  - assert (Hdm : Zpos (digits2_pos (m * 5674179970822794)) = 53 + 53).
    { apply digits2_pos_unique. fold M. simpl Z.sub. simpl Z.add.
      rewrite HM. split; [lia |].
      change (2 ^ 106) with (9007199254740992 * 9007199254740992). nia. }
    destruct (binary_round_aux_carry false (m * 5674179970822794) (e + -52) 53
                loc_Exact ltac:(lia) Hdm)
      as (m' & e' & Hr & Hd' & Hcase); try lia.
    exists m', e'. split; [exact Hr |]. split; [exact Hd' |].
    fold M in Hcase.
    pose proof (Z.mul_succ_div_gt M (2 ^ 53) ltac:(lia)) as Hq.
    pose proof (Z.mul_div_le M (2 ^ 53) ltac:(lia)) as Hq'.
    change (2 ^ 52) with 4503599627370496 in *.
    change (2 ^ 53) with 9007199254740992 in *.
    destruct Hcase as [[-> Hm'] | (-> & Hm' & Hc)].
    + replace (e + -52 + 53 - e) with 1 by lia. change (2 ^ 1) with 2.
      split; lia.
    + replace (e + -52 + 53 + 1 - e) with 2 by lia. change (2 ^ 2) with 4.
      split; lia.
Qed.

(** One division by [LOGMUL] is exact to two units in the last place of
    the quotient. *)
Lemma div_LOGMUL_near (m : positive) (e : Z) :
  Zpos (digits2_pos m) = 53 ->
  -58 <= e <= -47 ->
  exists m' e',
    div (S754_finite false m e) LOGMUL = S754_finite false m' e' /\
    Zpos (digits2_pos m') = 53 /\
    e - 1 <= e' <= e + 1 /\
    Z.abs (Zpos m' * 2 ^ (e' - e + 1) * 5674179970822794 - Zpos m * 2 ^ 53)
      <= 2 * 2 ^ (e' - e + 1) * 5674179970822794.
Proof.
  intros Hd He. pose proof (normal_mantissa m Hd) as B.
  unfold div, SFdiv, SFdiv_core_binary, LOGMUL. simpl xorb. simpl Zdigits2.
  rewrite Hd. change (Zpos (digits2_pos 5674179970822794)) with 53.
  unfold fexp, SpecFloat.emin, prec, emax.
  replace (Z.min (Z.max (53 + e - (53 + -52) - 53) (3 - 1024 - 53)) (e - -52))
    with (e - 1) by lia.
  replace (e - -52 - (e - 1)) with 53 by lia.
  rewrite Z.shiftl_mul_pow2 by lia.
  destruct (Z.div_eucl (Zpos m * 2 ^ 53) 5674179970822794) as [q r] eqn:Hq.
  assert (Hqv : q = Zpos m * 2 ^ 53 / 5674179970822794)
    by (unfold Z.div; rewrite Hq; reflexivity).
  change (2 ^ 53) with 9007199254740992 in *.
  pose proof (Z.mul_div_le (Zpos m * 9007199254740992) 5674179970822794
                ltac:(lia)) as Hle.
  pose proof (Z.mul_succ_div_gt (Zpos m * 9007199254740992) 5674179970822794
                ltac:(lia)) as Hgt.
  rewrite <- Hqv in Hle, Hgt.
  assert (Hqb : 4503599627370496 <= q < 18014398509481984) by lia.
  destruct q as [| pq | pq]; [lia | | lia].
  destruct (Z.lt_ge_cases (Zpos pq) 9007199254740992) as [Hs | Hs].
  - assert (Hdq : Zpos (digits2_pos pq) = 53 + 0).
    { apply digits2_pos_unique. simpl Z.sub. simpl Z.add. lia. }
    destruct (binary_round_aux_carry false pq (e - 1) 0
                (new_location 5674179970822794 r) ltac:(lia) Hdq)
      as (m' & e' & Hr & Hd' & Hcase); try lia.
    exists m', e'. split; [exact Hr |]. split; [exact Hd' |].
    change (2 ^ 0) with 1 in Hcase. rewrite Z.div_1_r in Hcase.
    change (2 ^ 52) with 4503599627370496 in *.
    change (2 ^ 53) with 9007199254740992 in *.
    destruct Hcase as [[-> Hm'] | (-> & Hm' & Hc)].
    + replace (e - 1 + 0 - e + 1) with 0 by lia. change (2 ^ 0) with 1.
      split; lia.
    + replace (e - 1 + 0 + 1 - e + 1) with 1 by lia. change (2 ^ 1) with 2.
      split; lia.
  - assert (Hdq : Zpos (digits2_pos pq) = 53 + 1).
    { apply digits2_pos_unique. simpl Z.sub. simpl Z.add. lia. }
    destruct (binary_round_aux_carry false pq (e - 1) 1
                (new_location 5674179970822794 r) ltac:(lia) Hdq)
      as (m' & e' & Hr & Hd' & Hcase); try lia.
    exists m', e'. split; [exact Hr |]. split; [exact Hd' |].
    pose proof (Z.mul_div_le (Zpos pq) (2 ^ 1) ltac:(lia)) as Hh.
    pose proof (Z.mul_succ_div_gt (Zpos pq) (2 ^ 1) ltac:(lia)) as Hh'.
    change (2 ^ 1) with 2 in *.
    change (2 ^ 52) with 4503599627370496 in *.
    change (2 ^ 53) with 9007199254740992 in *.
    destruct Hcase as [[-> Hm'] | (-> & Hm' & Hc)].
    + replace (e - 1 + 1 - e + 1) with 1 by lia. change (2 ^ 1) with 2.
      split; lia.
    + replace (e - 1 + 1 + 1 - e + 1) with 2 by lia. change (2 ^ 2) with 4.
      split; lia.
Qed.

(** The same on a scale in range, in units of 2^-60, with what the clamp
    of the step does: it replaces the product only when it exceeds
    [Fastest], the quotient only when it is below [Slowest]. *)
Lemma mul_LOGMUL_units (g : double) :
  in_range g ->
  (units g * 5674179970822794 - units (mul g LOGMUL)
     <= units (mul g LOGMUL) * 2 ^ 52
     <= units g * 5674179970822794 + units (mul g LOGMUL)) /\
  (step_faster g = mul g LOGMUL \/
   (step_faster g = Fastest /\ 2 ^ 65 < units (mul g LOGMUL))).
Proof.
  intros Hg. destruct (in_range_parts g Hg) as (m & e & -> & Hd & He & _).
  destruct (mul_LOGMUL_near m e Hd He) as (m' & e' & Hr & Hd' & He' & Hnear).
  pose proof (normal_mantissa m' Hd') as B'.
  unfold step_faster. rewrite Hr. split.
  - apply Z.abs_le in Hnear.
    unfold units.
    replace (e' + 60) with ((e' - e) + (e + 60)) by lia.
    rewrite (Z.pow_add_r 2 (e' - e) (e + 60)) by lia.
    assert (Hp : 0 < 2 ^ (e + 60)) by (apply Z.pow_pos_nonneg; lia).
    assert (Hs : 0 < 2 ^ (e' - e)) by (apply Z.pow_pos_nonneg; lia).
    change (2 ^ 52) with 4503599627370496 in *.
    set (P := 2 ^ (e + 60)) in *. set (S := 2 ^ (e' - e)) in *.
    assert (H1 : S * 4503599627370496 * P <= Zpos m' * S * P) by nia.
    split; nia.
  - destruct (ltb Fastest (S754_finite false m' e')) eqn:Hlt;
      [right; split; [reflexivity |] | left; reflexivity].
    unfold Fastest in Hlt. apply ltb_pos_finite in Hlt.
    unfold units.
    assert (Hc : e' = -47 \/ e' = -46 \/ e' = -45) by lia.
    destruct Hc as [-> | [-> | ->]]; simpl Z.add;
      repeat match goal with |- context [2 ^ ?k] =>
        let v := eval vm_compute in (2 ^ k) in change (2 ^ k) with v end;
      lia.
Qed.

Lemma div_LOGMUL_units (g : double) :
  in_range g ->
  (units g * 2 ^ 104 - 2 * 5674179970822794 * units (div g LOGMUL)
     <= units (div g LOGMUL) * 5674179970822794 * 2 ^ 52
     <= units g * 2 ^ 104 + 2 * 5674179970822794 * units (div g LOGMUL)) /\
  (step_slower g = div g LOGMUL \/
   (step_slower g = Slowest /\ units (div g LOGMUL) < 2 ^ 54)).
Proof.
  intros Hg. destruct (in_range_parts g Hg) as (m & e & -> & Hd & He & _).
  destruct (div_LOGMUL_near m e Hd He) as (m' & e' & Hr & Hd' & He' & Hnear).
  pose proof (normal_mantissa m' Hd') as B'.
  unfold step_slower. rewrite Hr. split.
  - apply Z.abs_le in Hnear.
    unfold units.
    replace (e' + 60) with ((e' - e + 1) + (e + 59)) by lia.
    replace (e + 60) with (1 + (e + 59)) by lia.
    rewrite (Z.pow_add_r 2 (e' - e + 1) (e + 59)) by lia.
    rewrite (Z.pow_add_r 2 1 (e + 59)) by lia.
    change (2 ^ 1) with 2.
    assert (Hp : 0 < 2 ^ (e + 59)) by (apply Z.pow_pos_nonneg; lia).
    assert (Hs : 0 < 2 ^ (e' - e + 1)) by (apply Z.pow_pos_nonneg; lia).
    change (2 ^ 53) with 9007199254740992 in *.
    change (2 ^ 52) with 4503599627370496 in *.
    change (2 ^ 104) with (4503599627370496 * 4503599627370496) in *.
    set (P := 2 ^ (e + 59)) in *. set (S := 2 ^ (e' - e + 1)) in *.
    assert (H1 : S * 4503599627370496 * P <= Zpos m' * S * P) by nia.
    split; nia.
  - destruct (ltb (S754_finite false m' e') Slowest) eqn:Hlt;
      [right; split; [reflexivity |] | left; reflexivity].
    unfold Slowest in Hlt. apply ltb_pos_finite in Hlt.
    unfold units.
    assert (Hc : e' = -59) by lia. subst e'. simpl Z.add.
    change (2 ^ 1) with 2. change (2 ^ 54) with 18014398509481984. lia.
Qed.

(** An unclamped step is the product or the quotient itself. *)
Lemma step_faster_unclamped (g : double) :
  step_faster g <> Fastest -> step_faster g = mul g LOGMUL.
Proof.
  unfold step_faster. destruct (ltb Fastest (mul g LOGMUL)); congruence.
Qed.

Lemma step_slower_unclamped (g : double) :
  step_slower g <> Slowest -> step_slower g = div g LOGMUL.
Proof.
  unfold step_slower. destruct (ltb (div g LOGMUL) Slowest); congruence.
Qed.

(** The rational a scale in range stands for is its number of units
    over 2^60. *)
Lemma units_value (g : double) :
  in_range g ->
  exists q, value g = Some q /\ (q == units g # 2 ^ 60)%Q.
Proof.
  intros Hg. destruct (in_range_parts g Hg) as (m & e & -> & Hd & He & _).
  eexists. split; [reflexivity |].
  rewrite Qred_correct. simpl cond_Zopp. unfold units.
  exponent_cases e; try lia; unfold Qeq; simpl; lia.
Qed.

(** The bound of one step that is not clamped. *)
Lemma step_faster_near (g : double) :
  in_range g ->
  step_faster g <> Fastest ->
  units g * 5674179970822794 - units (step_faster g)
    <= units (step_faster g) * 2 ^ 52
    <= units g * 5674179970822794 + units (step_faster g).
Proof.
  intros Hg Hne. rewrite (step_faster_unclamped g Hne).
  apply (mul_LOGMUL_units g Hg).
Qed.

Lemma step_slower_near (g : double) :
  in_range g ->
  step_slower g <> Slowest ->
  units g * 2 ^ 104 - 2 * 5674179970822794 * units (step_slower g)
    <= units (step_slower g) * 5674179970822794 * 2 ^ 52
    <= units g * 2 ^ 104 + 2 * 5674179970822794 * units (step_slower g).
Proof.
  intros Hg Hne. rewrite (step_slower_unclamped g Hne).
  apply (div_LOGMUL_units g Hg).
Qed.

Lemma three_up_units (g : double) :
  in_range g ->
  step_faster (step_faster (step_faster g)) <> Fastest ->
  2 * units g * (2 ^ 48 - 1)
    <= units (step_faster (step_faster (step_faster g))) * 2 ^ 48
    <= 2 * units g * (2 ^ 48 + 1).
Proof.
  intros Hg Hne.
  assert (H2 : step_faster (step_faster g) <> Fastest).
  { intros E. apply Hne. rewrite E. apply step_faster_Fastest. }
  assert (H1 : step_faster g <> Fastest).
  { intros E. apply H2. rewrite E. apply step_faster_Fastest. }
  pose proof (step_faster_in_range g Hg) as R1.
  pose proof (step_faster_in_range _ R1) as R2.
  pose proof (step_faster_near g Hg H1) as N1.
  pose proof (step_faster_near _ R1 H2) as N2.
  pose proof (step_faster_near _ R2 Hne) as N3.
  pose proof (units_in_range g Hg) as B0.
  set (u0 := units g) in *.
  set (u1 := units (step_faster g)) in *.
  set (u2 := units (step_faster (step_faster g))) in *.
  set (u3 := units (step_faster (step_faster (step_faster g)))) in *.
  clearbody u0 u1 u2 u3.
  change (2 ^ 52) with 4503599627370496 in *.
  change (2 ^ 48) with 281474976710656 in *.
  change (2 ^ 54) with 18014398509481984 in *.
  lia.
Qed.

Lemma three_down_units (g : double) :
  in_range g ->
  step_slower (step_slower (step_slower g)) <> Slowest ->
  units g * (2 ^ 48 - 1)
    <= 2 * units (step_slower (step_slower (step_slower g))) * 2 ^ 48
    <= units g * (2 ^ 48 + 1).
Proof.
  intros Hg Hne.
  assert (H2 : step_slower (step_slower g) <> Slowest).
  { intros E. apply Hne. rewrite E. apply step_slower_Slowest. }
  assert (H1 : step_slower g <> Slowest).
  { intros E. apply H2. rewrite E. apply step_slower_Slowest. }
  pose proof (step_slower_in_range g Hg) as R1.
  pose proof (step_slower_in_range _ R1) as R2.
  pose proof (step_slower_near g Hg H1) as N1.
  pose proof (step_slower_near _ R1 H2) as N2.
  pose proof (step_slower_near _ R2 Hne) as N3.
  pose proof (units_in_range g Hg) as B0.
  set (u0 := units g) in *.
  set (u1 := units (step_slower g)) in *.
  set (u2 := units (step_slower (step_slower g))) in *.
  set (u3 := units (step_slower (step_slower (step_slower g)))) in *.
  clearbody u0 u1 u2 u3.
  change (2 ^ 52) with 4503599627370496 in *.
  change (2 ^ 104) with 20282409603651670423947251286016 in *.
  change (2 ^ 48) with 281474976710656 in *.
  change (2 ^ 54) with 18014398509481984 in *.
  lia.
Qed.

(** From a bound in units to a bound on the rationals. *)
Lemma ratio_within_units (x y : double) (n d t : positive) :
  in_range x -> in_range y ->
  Zpos n * units x * (Zpos t - 1) <= Zpos d * units y * Zpos t
    <= Zpos n * units x * (Zpos t + 1) ->
  ratio_within (Zpos n # d) (1 # t) x y.
Proof.
  intros Hx Hy Hb.
  destruct (units_value x Hx) as (qx & Hqx & Ex).
  destruct (units_value y Hy) as (qy & Hqy & Ey).
  exists qx, qy. split; [exact Hqx |]. split; [exact Hqy |].
  rewrite Ex, Ey.
  set (ux := units x) in *. set (uy := units y) in *. clearbody ux uy.
  unfold Qle, Qmult, Qminus, Qplus, Qopp, Qnum, Qden.
  cbn [Qnum Qden].
  rewrite !Pos2Z.inj_mul.
  assert (Hp : 0 < Z.pos (2 ^ 60)) by lia.
  set (P := Z.pos (2 ^ 60)) in *. clearbody P.
  split; nia.
Qed.

Lemma up_down_units (g : double) :
  in_range g ->
  step_faster g <> Fastest ->
  units g * (2 ^ 50 - 1)
    <= units (step_slower (step_faster g)) * 2 ^ 50
    <= units g * (2 ^ 50 + 1).
Proof.
  intros Hg Hne.
  pose proof (step_faster_in_range g Hg) as R1.
  pose proof (step_faster_near g Hg Hne) as N1.
  destruct (div_LOGMUL_units _ R1) as [N2 Hc].
  pose proof (units_in_range g Hg) as B0.
  assert (HS : units Slowest = 2 ^ 54) by reflexivity.
  destruct Hc as [-> | [-> Hx]]; [| rewrite HS].
  all: set (u0 := units g) in *;
       set (u1 := units (step_faster g)) in *;
       set (u2 := units (div (step_faster g) LOGMUL)) in *;
       clearbody u0 u1 u2;
       change (2 ^ 52) with 4503599627370496 in *;
       change (2 ^ 104) with 20282409603651670423947251286016 in *;
       change (2 ^ 50) with 1125899906842624 in *;
       change (2 ^ 54) with 18014398509481984 in *;
       change (2 ^ 65) with 36893488147419103232 in *;
       lia.
Qed.

Lemma down_up_units (g : double) :
  in_range g ->
  step_slower g <> Slowest ->
  units g * (2 ^ 50 - 1)
    <= units (step_faster (step_slower g)) * 2 ^ 50
    <= units g * (2 ^ 50 + 1).
Proof.
  intros Hg Hne.
  pose proof (step_slower_in_range g Hg) as R1.
  pose proof (step_slower_near g Hg Hne) as N1.
  destruct (mul_LOGMUL_units _ R1) as [N2 Hc].
  pose proof (units_in_range g Hg) as B0.
  assert (HF : units Fastest = 2 ^ 65) by reflexivity.
  destruct Hc as [-> | [-> Hx]]; [| rewrite HF].
  all: set (u0 := units g) in *;
       set (u1 := units (step_slower g)) in *;
       set (u2 := units (mul (step_slower g) LOGMUL)) in *;
       clearbody u0 u1 u2;
       change (2 ^ 52) with 4503599627370496 in *;
       change (2 ^ 104) with 20282409603651670423947251286016 in *;
       change (2 ^ 50) with 1125899906842624 in *;
       change (2 ^ 54) with 18014398509481984 in *;
       change (2 ^ 65) with 36893488147419103232 in *;
       lia.
Qed.

Lemma scale_after_Increase_Decrease (h : Host) (w : World) :
  scale_after (IncreaseEmulationSpeed ;; DecreaseEmulationSpeed) h w =
  step_slower (step_faster (g_fpsScale (globals w))).
Proof.
  unfold scale_after, bind. rewrite IncreaseEmulationSpeed_run. cbv zeta.
  cbn [fst snd]. rewrite DecreaseEmulationSpeed_run. reflexivity.
Qed.

Lemma scale_after_Decrease_Increase (h : Host) (w : World) :
  scale_after (DecreaseEmulationSpeed ;; IncreaseEmulationSpeed) h w =
  step_faster (step_slower (g_fpsScale (globals w))).
Proof.
  unfold scale_after, bind. rewrite DecreaseEmulationSpeed_run. cbv zeta.
  cbn [fst snd]. rewrite IncreaseEmulationSpeed_run. reflexivity.
Qed.

(** X13: the speed table is a table of octaves.  From every scale in
    range, three steps up that do not end on [Fastest] double the speed,
    and three steps down that do not end on [Slowest] halve it, each
    within a relative error of 2^-48. *)
Theorem three_steps_double (h : Host) (w : World) :
  in_range (g_fpsScale (globals w)) ->
  (scale_after (call_n 3 IncreaseEmulationSpeed) h w <> Fastest ->
   ratio_within 2 (1 # 2 ^ 48) (g_fpsScale (globals w))
     (scale_after (call_n 3 IncreaseEmulationSpeed) h w)) /\
  (scale_after (call_n 3 DecreaseEmulationSpeed) h w <> Slowest ->
   ratio_within (1 # 2) (1 # 2 ^ 48) (g_fpsScale (globals w))
     (scale_after (call_n 3 DecreaseEmulationSpeed) h w)).
Proof.
  intros Hg.
  rewrite (scale_after_call_n _ step_faster h (scale_after_Increase h)).
  rewrite (scale_after_call_n _ step_slower h (scale_after_Decrease h)).
  cbn [Nat.iter nat_rect].
  set (g := g_fpsScale (globals w)) in *.
  split; intros Hne.
  - apply (ratio_within_units g _ 2 1 (2 ^ 48)); [exact Hg | |].
    + repeat apply step_faster_in_range. exact Hg.
    + pose proof (three_up_units g Hg Hne) as B.
      change (Z.pos (2 ^ 48)) with 281474976710656.
      change (2 ^ 48) with 281474976710656 in B. lia.
  - apply (ratio_within_units g _ 1 2 (2 ^ 48)); [exact Hg | |].
    + repeat apply step_slower_in_range. exact Hg.
    + pose proof (three_down_units g Hg Hne) as B.
      change (Z.pos (2 ^ 48)) with 281474976710656.
      change (2 ^ 48) with 281474976710656 in B. lia.
Qed.

(** X14: a step is undone by the opposite step.  One step up that does
    not end on [Fastest], followed by one step down, gives back the scale
    within a relative error of 2^-50; so does one step down that does not
    end on [Slowest], followed by one step up. *)
Theorem opposite_steps_cancel (h : Host) (w : World) :
  in_range (g_fpsScale (globals w)) ->
  (scale_after IncreaseEmulationSpeed h w <> Fastest ->
   ratio_within 1 (1 # 2 ^ 50) (g_fpsScale (globals w))
     (scale_after (IncreaseEmulationSpeed ;; DecreaseEmulationSpeed) h w)) /\
  (scale_after DecreaseEmulationSpeed h w <> Slowest ->
   ratio_within 1 (1 # 2 ^ 50) (g_fpsScale (globals w))
     (scale_after (DecreaseEmulationSpeed ;; IncreaseEmulationSpeed) h w)).
Proof.
  intros Hg.
  rewrite scale_after_Increase_Decrease, scale_after_Decrease_Increase.
  rewrite scale_after_Increase, scale_after_Decrease.
  set (g := g_fpsScale (globals w)) in *.
  split; intros Hne.
  - apply (ratio_within_units g _ 1 1 (2 ^ 50)); [exact Hg | |].
    + apply step_slower_in_range, step_faster_in_range, Hg.
    + pose proof (up_down_units g Hg Hne) as B.
      change (Z.pos (2 ^ 50)) with 1125899906842624.
      change (2 ^ 50) with 1125899906842624 in B. lia.
  - apply (ratio_within_units g _ 1 1 (2 ^ 50)); [exact Hg | |].
    + apply step_faster_in_range, step_slower_in_range, Hg.
    + pose proof (down_up_units g Hg Hne) as B.
      change (Z.pos (2 ^ 50)) with 1125899906842624.
      change (2 ^ 50) with 1125899906842624 in B. lia.
Qed.

Lemma three_steps_double_at_start :
  in_range (g_fpsScale (globals world_start)) /\
  ratio_within 2 (1 # 2 ^ 48) (g_fpsScale (globals world_start))
    (scale_after (call_n 3 IncreaseEmulationSpeed) host_ntsc world_start) /\
  ratio_within (1 # 2) (1 # 2 ^ 48) (g_fpsScale (globals world_start))
    (scale_after (call_n 3 DecreaseEmulationSpeed) host_ntsc world_start).
Proof.
  split; [repeat split |].
  destruct (three_steps_double host_ntsc world_start
              (conj eq_refl (conj eq_refl eq_refl))) as [Hup Hdown].
  split; [apply Hup | apply Hdown]; vm_compute; discriminate.
Defined.

Lemma opposite_steps_cancel_at_start :
  in_range (g_fpsScale (globals world_start)) /\
  ratio_within 1 (1 # 2 ^ 50) (g_fpsScale (globals world_start))
    (scale_after (IncreaseEmulationSpeed ;; DecreaseEmulationSpeed)
       host_ntsc world_start) /\
  ratio_within 1 (1 # 2 ^ 50) (g_fpsScale (globals world_start))
    (scale_after (DecreaseEmulationSpeed ;; IncreaseEmulationSpeed)
       host_ntsc world_start).
Proof.
  split; [repeat split |].
  destruct (opposite_steps_cancel host_ntsc world_start
              (conj eq_refl (conj eq_refl eq_refl))) as [Hup Hdown].
  split; [apply Hup | apply Hdown]; vm_compute; discriminate.
Defined.
